(** * A shallow embedding of the image pipeline of [src/optimize.py]

    Images are records carrying their size, their colour mode, their pixel
    data (a function from coordinates to channel values) and the EXIF mapping
    returned by [_getexif()] (absent when the object has no such method or the
    method returns [None]).  Python floats are modelled by exact rationals
    ([Q]); the Pillow primitives whose pixel results are not the subject of
    this development (resampling kernels, colour conversion, enhancement,
    blur, compositing) are section variables: every theorem holds for all of
    them.  The size arithmetic Pillow performs (in [Image.thumbnail] and in
    [Image.resize]'s argument check) and the pixel semantics of
    [Image.transpose] are written out. *)

From Stdlib Require Import ZArith QArith Qround Qabs Qminmax Lqa Lia Ascii String List Bool.
Import ListNotations.
Open Scope string_scope.
Open Scope Z_scope.

(** ** Python-level results *)

Inductive PyError :=
| TypeError
| ValueError
| ZeroDivisionError
| KeyError.

Inductive result (A : Type) :=
| Ok (a : A)
| Err (e : PyError).
Arguments Ok {A} a.
Arguments Err {A} e.

Definition bind {A B} (r : result A) (k : A -> result B) : result B :=
  match r with Ok a => k a | Err e => Err e end.

Notation "x <- r ;; k" := (bind r (fun x => k))
  (at level 61, r at next level, right associativity).

(** ** Images *)

Definition Pixel := list Z.

Record Image := mkImage {
  width : Z;
  height : Z;
  mode : string;
  pixels : Z -> Z -> Pixel;
  exif : option (list (Z * Z))
}.

(** [Image.transpose]: the five operations used by [fix_orientation].  The
    result is a fresh [Image.Image], which has no [_getexif] method. *)
Inductive Transpose :=
| FLIP_LEFT_RIGHT
| FLIP_TOP_BOTTOM
| ROTATE_90
| ROTATE_180
| ROTATE_270.

Definition transpose (t : Transpose) (image : Image) : Image :=
  let w := width image in
  let h := height image in
  let p := pixels image in
  match t with
  | FLIP_LEFT_RIGHT => mkImage w h (mode image) (fun x y => p (w - 1 - x) y) None
  | FLIP_TOP_BOTTOM => mkImage w h (mode image) (fun x y => p x (h - 1 - y)) None
  (* counter-clockwise: the source pixel (x, y) lands at (y, w-1-x) *)
  | ROTATE_90 => mkImage h w (mode image) (fun x y => p (w - 1 - y) x) None
  | ROTATE_180 => mkImage w h (mode image) (fun x y => p (w - 1 - x) (h - 1 - y)) None
  (* clockwise: the source pixel (x, y) lands at (h-1-y, x) *)
  | ROTATE_270 => mkImage h w (mode image) (fun x y => p y (h - 1 - x)) None
  end.

(** ** Paths ([pathlib.PurePosixPath]) and the directories on disk *)

Record PyPath := mkPath {
  anchored : bool;          (* starts at the root [/] *)
  parts : list string       (* the components after the root *)
}.

Definition slash : Ascii.ascii := "/"%char.
Definition dot : Ascii.ascii := "."%char.

(** [s.split("/")] *)
Fixpoint split_slash (s : string) : list string :=
  match s with
  | EmptyString => [EmptyString]
  | String c s' =>
      let rest := split_slash s' in
      if Ascii.eqb c slash then EmptyString :: rest
      else match rest with
           | r :: rs => String c r :: rs
           | [] => [String c EmptyString]
           end
  end.

(** [Path(s)]: empty components and ["."] components are dropped. *)
Definition path_of_string (s : string) : PyPath :=
  mkPath (String.prefix "/" s)
    (filter (fun c => negb (String.eqb c "" || String.eqb c ".")) (split_slash s)).

(** [p / s]: an anchored right operand replaces the left one. *)
Definition path_div (p : PyPath) (s : string) : PyPath :=
  let q := path_of_string s in
  if anchored q then q else mkPath (anchored p) (parts p ++ parts q)%list.

(** [PurePath.name] *)
Definition path_name (p : PyPath) : string := last (parts p) "".

(** [name.rfind(".")], [None] for -1 *)
Fixpoint rfind_dot (s : string) (i : nat) (acc : option nat) : option nat :=
  match s with
  | EmptyString => acc
  | String c s' => rfind_dot s' (S i) (if Ascii.eqb c dot then Some i else acc)
  end.

(** [PurePath.stem]: [name[:i]] when [0 < i < len(name) - 1], else [name]. *)
Definition path_stem (p : PyPath) : string :=
  let name := path_name p in
  match rfind_dot name 0 None with
  | Some i =>
      if Nat.ltb 0 i && Nat.ltb i (String.length name - 1)
      then substring 0 i name else name
  | None => name
  end.

(** The directories that exist. *)
Definition FS := list PyPath.

Definition path_eqb (p q : PyPath) : bool :=
  Bool.eqb (anchored p) (anchored q) &&
  (fix eq_parts (l1 l2 : list string) : bool :=
     match l1, l2 with
     | [], [] => true
     | a :: l1', b :: l2' => String.eqb a b && eq_parts l1' l2'
     | _, _ => false
     end) (parts p) (parts q).

(** The ancestors of [p] below the root, outermost first, and [p] itself. *)
Definition ancestors (p : PyPath) : list PyPath :=
  map (fun n => mkPath (anchored p) (firstn n (parts p))) (seq 1 (length (parts p))).

(** [p.mkdir(parents=True, exist_ok=True)] *)
Definition mkdir_parents (fs : FS) (p : PyPath) : FS :=
  fold_left (fun fs q => if existsb (path_eqb q) fs then fs else (fs ++ [q])%list)
    (ancestors p) fs.

(** ** Configuration

    The dictionaries of [PipelineConfig] are read with [.get] and [[ ]]; each
    key the code reads becomes an optional field (absent key = [None]). *)

Record Adjustments := mkAdjustments {
  brightness : option Q;
  contrast : option Q;
  sharpness : option Q
}.

Record WatermarkConfig := mkWatermarkConfig {
  wm_enabled : option bool;
  wm_path : option string;
  wm_resize_percentage : option Q;
  wm_position : option string;
  wm_padding : option Z;
  wm_opacity : option Q
}.

(** The [webp], [thumbnail] and [blur] sections; [quality], [method] and
    [lossless] are passed to the WebP encoder. *)
Record OutputConfig := mkOutputConfig {
  o_enabled : option bool;
  o_width : option Z;
  o_height : option Z;
  o_radius : option Q;
  o_path : option string;
  o_suffix : option string;
  o_quality : option Q;
  o_method : option Z;
  o_lossless : option bool
}.

Record PipelineConfig := mkPipelineConfig {
  orientation_enabled : bool;
  colormode : string;
  scaling_enabled : bool;
  adjustments_enabled : bool;
  colormode_enabled : bool;
  scaling : Z * Z;
  adjustments : Adjustments;
  watermark : WatermarkConfig;
  webp_settings : OutputConfig;
  thumbnail : OutputConfig;
  blur : OutputConfig;
  output_dir : PyPath
}.

(** ** [fix_orientation] *)

(** [ExifTags.TAGS] maps 0x0112 = 274 to ["Orientation"]; the loop of the
    source finds this tag. *)
Definition ORIENTATION_TAG : Z := 274.

(** Lookup in [dict(image._getexif().items())] (the keys are distinct). *)
Fixpoint exif_lookup (k : Z) (l : list (Z * Z)) : option Z :=
  match l with
  | [] => None
  | (k', v) :: l' => if k' =? k then Some v else exif_lookup k l'
  end.

Definition fix_orientation (image : Image) (config : PipelineConfig) : Image :=
  if negb (orientation_enabled config) then image else
  match exif image with
  | None => image
  | Some ex =>
      match exif_lookup ORIENTATION_TAG ex with
      | None => image
      | Some orientation =>
          if orientation =? 2 then transpose FLIP_LEFT_RIGHT image
          else if orientation =? 3 then transpose ROTATE_180 image
          else if orientation =? 4 then transpose FLIP_TOP_BOTTOM image
          else if orientation =? 5 then
            transpose ROTATE_90 (transpose FLIP_LEFT_RIGHT image)
          else if orientation =? 6 then transpose ROTATE_270 image
          else if orientation =? 7 then
            transpose ROTATE_270 (transpose FLIP_LEFT_RIGHT image)
          else if orientation =? 8 then transpose ROTATE_90 image
          else image
      end
  end.

(** The table of the specification: the transforms of each EXIF orientation
    tag, applied left to right. *)
Definition documented_orientation (tag : Z) : list Transpose :=
  if tag =? 2 then [FLIP_LEFT_RIGHT]
  else if tag =? 3 then [ROTATE_180]
  else if tag =? 4 then [FLIP_TOP_BOTTOM]
  else if tag =? 5 then [FLIP_LEFT_RIGHT; ROTATE_90]
  else if tag =? 6 then [ROTATE_270]
  else if tag =? 7 then [FLIP_LEFT_RIGHT; ROTATE_270]
  else if tag =? 8 then [ROTATE_90]
  else [].

Definition apply_transposes (ts : list Transpose) (image : Image) : Image :=
  fold_left (fun im t => transpose t im) ts image.

(** ** Output paths *)

(** [generate_output_path(config, file_path, output_dir)]; a [Path] is always
    truthy, so a given [output_dir] is kept. *)
Definition generate_output_path (fs : FS) (config : OutputConfig)
    (file_path : PyPath) (output_dir : option PyPath) : result (FS * PyPath) :=
  output_dir <- match output_dir with
                | Some d => Ok d
                | None =>
                    match o_path config with
                    | Some s => Ok (path_of_string s)
                    | None => Err TypeError   (* Path(None) *)
                    end
                end ;;
  let fs := mkdir_parents fs output_dir in
  let base_name := path_stem file_path in
  let suffix := match o_suffix config with Some s => s | None => "" end in
  Ok (fs, path_div output_dir (base_name ++ suffix ++ ".webp")).

(** ** The disk and [Image.save]

    The disk holds the directories of [FS] and the regular files, each with
    its content: a source file (its size and what [Image.open] decodes from
    it, [None] for a file Pillow cannot identify) or a WebP file written by
    one of the three encoders of the pipeline.  Directories and regular files
    are kept apart: a [mkdir] over an existing regular file
    ([FileExistsError]) is not modelled. *)

Inductive SaveKind := Optimized | Thumb | Blurred.

Inductive File :=
| SourceFile (size : Z) (decoded : option Image)
| WebpFile (kind : SaveKind) (image : Image).

Record Disk := mkDisk {
  dirs : FS;
  files : list (PyPath * File)
}.

Fixpoint lookup_file (l : list (PyPath * File)) (p : PyPath) : option File :=
  match l with
  | [] => None
  | (q, f) :: l' => if path_eqb q p then Some f else lookup_file l' p
  end.

(** Writing [f] at [p] replaces the file there, if any. *)
Definition write_file (l : list (PyPath * File)) (p : PyPath) (f : File) : list (PyPath * File) :=
  (p, f) :: filter (fun e => negb (path_eqb (fst e) p)) l.

(** The root and the working directory (no component) always exist. *)
Definition is_dir (disk : Disk) (p : PyPath) : bool :=
  match parts p with
  | [] => true
  | _ => existsb (path_eqb p) (dirs disk)
  end.

Definition parent (p : PyPath) : PyPath := mkPath (anchored p) (removelast (parts p)).

(** [str(path)] *)
Definition path_str (p : PyPath) : string :=
  let body := String.concat "/" (parts p) in
  if anchored p then "/" ++ body
  else if String.eqb body "" then "." else body.

(** The errors of a run: those of the stages and those of the file system. *)
Inductive RunError :=
| PyErr (e : PyError)
| FileNotFoundError
| IsADirectoryError
| UnidentifiedImageError.

Inductive outcome (A : Type) :=
| Done (a : A)
| Failed (e : RunError).
Arguments Done {A} a.
Arguments Failed {A} e.

Definition obind {A B} (r : outcome A) (k : A -> outcome B) : outcome B :=
  match r with Done a => k a | Failed e => Failed e end.

Notation "x <~ r ;; k" := (obind r (fun x => k))
  (at level 61, r at next level, right associativity).

Definition lift {A} (r : result A) : outcome A :=
  match r with Ok a => Done a | Err e => Failed (PyErr e) end.

(** The WebP encoder's reading of the [quality], [method] and [lossless]
    arguments of [save] ([WebPImagePlugin._save]; the key of an absent
    setting is read as [None] by [.get]).  [float(None)] for the quality and
    a [None] parsed as a C [int] for the method or the lossless flag raise
    [TypeError]; libwebp's [WebPValidateConfig] then refuses a quality
    outside [0, 100] or a method outside [0, 6] (["invalid configuration"],
    a [ValueError]).  [create_thumbnail] and [create_blurred] pass no
    [lossless], which Pillow reads as [False]. *)
Definition webp_encoder_check (quality : option Q) (method : option Z)
    (lossless : option bool) : result unit :=
  match quality, method, lossless with
  | Some q, Some m, Some _ =>
      if Qle_bool 0 q && Qle_bool q 100 && (0 <=? m) && (m <=? 6) then Ok tt
      else Err ValueError
  | _, _, _ => Err TypeError
  end.

(** [image.save(p, format="WEBP", ...)]: [open(p, "w+b")] first
    ([IsADirectoryError] on a directory, [FileNotFoundError] when the parent
    directory is missing), then the encoder, whose argument check is
    [encode].  When the encoder raises, Pillow truncates or removes the file
    it opened; the disk after a failed run is not part of the model. *)
Definition save_file (disk : Disk) (p : PyPath) (encode : result unit) (f : File) : outcome Disk :=
  if is_dir disk p then Failed IsADirectoryError
  else if negb (is_dir disk (parent p)) then Failed FileNotFoundError
  else match encode with
       | Ok _ => Done (mkDisk (dirs disk) (write_file (files disk) p f))
       | Err e => Failed (PyErr e)
       end.

(** ** Pillow operations and the pipeline stages *)

Definition default {A} (d : A) (o : option A) : A :=
  match o with Some a => a | None => d end.

(** [a < b] on Python floats *)
Definition Qltb (a b : Q) : bool := negb (Qle_bool b a).

(** [int(q)]: truncation towards zero *)
Definition py_int (q : Q) : Z := if Qle_bool 0%Q q then Qfloor q else Qceiling q.

Inductive Enhancer := Brightness | Contrast | Sharpness.

Section Pillow.

(** The pixel results of the Pillow primitives. *)
Variable resample_px : Image -> Z -> Z -> Z -> Z -> Pixel.      (* LANCZOS *)
Variable conversion_supported : string -> string -> bool.
Variable convert_px : string -> Image -> Z -> Z -> Pixel.
Variable enhance_px : Enhancer -> Q -> Image -> Z -> Z -> Pixel.
Variable blur_px : Q -> Image -> Z -> Z -> Pixel.             (* GaussianBlur *)
Variable opacity_px : Q -> Image -> Z -> Z -> Pixel.          (* alpha.point(p * o) *)
Variable composite_px : Image -> Image -> Z * Z -> Z -> Z -> Pixel.

(** [Image.convert(mode)]: a copy when the mode is already [mode], a
    [ValueError] for a conversion Pillow does not support. *)
Definition convert (image : Image) (m : string) : result Image :=
  if String.eqb m (mode image) then
    Ok (mkImage (width image) (height image) m (pixels image) None)
  else if conversion_supported (mode image) m then
    Ok (mkImage (width image) (height image) m (convert_px m image) None)
  else Err ValueError.

(** [Image.resize(size, LANCZOS, reducing_gap=...)]: a copy for the same
    size; with a reducing gap the size is divided by first
    ([ZeroDivisionError] on a zero side); the C core refuses a side below 1
    (["height and width must be > 0"]). *)
Definition resize (image : Image) (w h : Z) (reducing_gap : bool) : result Image :=
  if (w =? width image) && (h =? height image) then
    Ok (mkImage w h (mode image) (pixels image) None)
  else if reducing_gap && ((w =? 0) || (h =? 0)) then Err ZeroDivisionError
  else if (w <? 1) || (h <? 1) then Err ValueError
  else Ok (mkImage w h (mode image) (resample_px image w h) None).

(** [round_aspect] of [Image.thumbnail]: [max(min(floor(n), ceil(n), key=key), 1)];
    [min] keeps the first of two equal keys. *)
Definition round_aspect (number : Q) (key : Z -> Q) : Z :=
  let f := Qfloor number in
  let c := Qceiling number in
  Z.max (if Qle_bool (key f) (key c) then f else c) 1.

(** [preserve_aspect_ratio] of [Image.thumbnail] (Pillow >= 9.1, the
    version providing [Transpose] and [Resampling]): [None] when the image
    already fits. *)
Definition preserve_aspect_ratio (w h x y : Z) : result (option (Z * Z)) :=
  if (w <=? x) && (h <=? y) then Ok None
  else if h =? 0 then Err ZeroDivisionError
  else
    let aspect := (inject_Z w / inject_Z h)%Q in
    if y =? 0 then Err ZeroDivisionError
    else if Qle_bool aspect (inject_Z x / inject_Z y)%Q then
      Ok (Some (round_aspect (inject_Z y * aspect)%Q
                  (fun n => Qabs (aspect - inject_Z n / inject_Z y)%Q), y))
    else if Qeq_bool aspect 0%Q then Err ZeroDivisionError
    else
      Ok (Some (x, round_aspect (inject_Z x / aspect)%Q
                     (fun n => if n =? 0 then 0%Q
                               else Qabs (aspect - inject_Z x / inject_Z n)%Q))).

(** [image.thumbnail(size, LANCZOS)]: in place, so the object keeps its EXIF. *)
Definition thumbnail_inplace (image : Image) (size : Z * Z) : result Image :=
  let (x, y) := size in
  final <- preserve_aspect_ratio (width image) (height image) x y ;;
  match final with
  | None => Ok image
  | Some (fw, fh) =>
      if (fw =? width image) && (fh =? height image) then Ok image
      else im <- resize image fw fh true ;;
           Ok (mkImage (width im) (height im) (mode im) (pixels im) (exif image))
  end.

Definition fix_colormode (image : Image) (config : PipelineConfig) : result Image :=
  if negb (colormode_enabled config) then Ok image else
  let cm := colormode config in
  if String.eqb cm "RGB" || String.eqb cm "RGBA" then
    if String.eqb (mode image) "RGBA" then Ok image
    else if String.eqb (mode image) "LA" then convert image "RGBA"
    else convert image cm
  else if String.eqb cm "GRAY" then convert image "L"
  else convert image cm.

Definition scale_image (image : Image) (config : PipelineConfig) : result Image :=
  if negb (scaling_enabled config) then Ok image else
  let (max_width, max_height) := scaling config in
  if (max_width <? width image) || (max_height <? height image)
  then thumbnail_inplace image (max_width, max_height)
  else Ok image.

(** [ImageEnhance.X(image).enhance(factor)] *)
Definition enhance (k : Enhancer) (image : Image) (factor : Q) : Image :=
  mkImage (width image) (height image) (mode image) (enhance_px k factor image) None.

Definition adjust_image (image : Image) (config : PipelineConfig) : Image :=
  if negb (adjustments_enabled config) then image else
  let adj := adjustments config in
  let image :=
    if negb (Qeq_bool (default 1%Q (brightness adj)) 1)
    then enhance Brightness image (default 1%Q (brightness adj)) else image in
  let image :=
    if negb (Qeq_bool (default 1%Q (contrast adj)) 1)
    then enhance Contrast image (default 1%Q (contrast adj)) else image in
  let image :=
    if negb (Qeq_bool (default 1%Q (sharpness adj)) 1)
    then enhance Sharpness image (default 1%Q (sharpness adj)) else image in
  image.

(** The placement of the watermark: lines 161-182 of [add_watermark]. *)
Definition watermark_position (position : option string) (padding : option Z)
    (image watermark : Image) : Z * Z :=
  let position := default "bottom-right" position in
  let padding := default 10 padding in
  if String.eqb position "top-left" then (padding, padding)
  else if String.eqb position "top-right" then
    (width image - width watermark - padding, padding)
  else if String.eqb position "bottom-left" then
    (padding, height image - height watermark - padding)
  else if String.eqb position "bottom-right" then
    (width image - width watermark - padding,
     height image - height watermark - padding)
  else if String.eqb position "center" then
    ((width image - width watermark) / 2, (height image - height watermark) / 2)
  else (padding, padding).

(** [add_watermark]; [assets] gives the decoded image of each file on disk. *)
Definition add_watermark (assets : string -> option Image) (image : Image)
    (config : PipelineConfig) : result Image :=
  let watermark_config := watermark config in
  if negb (default false (wm_enabled watermark_config)) then Ok image else
  match wm_path watermark_config with
  | None => Err KeyError
  | Some watermark_path =>
  match assets watermark_path with
  | None => Ok image
  | Some asset =>
  watermark <- convert asset "RGBA" ;;
  watermark <-
    (if Qltb 0 (default 0%Q (wm_resize_percentage watermark_config)) then
       let percent := (default 0%Q (wm_resize_percentage watermark_config) / 100)%Q in
       let wm_width := py_int (inject_Z (width image) * percent)%Q in
       if width watermark =? 0 then Err ZeroDivisionError else
       let wm_height := py_int (inject_Z (height watermark) *
                                (inject_Z wm_width / inject_Z (width watermark)))%Q in
       resize watermark wm_width wm_height false
     else Ok watermark) ;;
  let pos := watermark_position (wm_position watermark_config)
               (wm_padding watermark_config) image watermark in
  match wm_opacity watermark_config with
  | None => Err TypeError          (* None < 1.0 *)
  | Some target_opacity =>
  let watermark :=
    if Qltb target_opacity 1 then
      mkImage (width watermark) (height watermark) (mode watermark)
        (opacity_px target_opacity watermark) None
    else watermark in
  image <- (if String.eqb (mode image) "RGBA" then Ok image else convert image "RGBA") ;;
  (* alpha_composite of the image and the layer holding the pasted watermark,
     then convert("RGB") *)
  Ok (mkImage (width image) (height image) "RGB" (composite_px image watermark pos) None)
  end
  end
  end.

(** [Image.new(image.mode, image.size)] followed by [paste(image)]: the same
    pixels, no EXIF. *)
Definition strip (image : Image) : Image :=
  mkImage (width image) (height image) (mode image) (pixels image) None.

(** [recreate_resize_image]: [thumbnail((None, ...))] fails in [math.floor]. *)
Definition recreate_resize_image (image : Image) (config : OutputConfig) : result Image :=
  match o_width config, o_height config with
  | Some target_width, Some target_height =>
      thumbnail_inplace (strip image) (target_width, target_height)
  | _, _ => Err TypeError
  end.

(** [image.filter(ImageFilter.GaussianBlur(radius=r))] *)
Definition gaussian_blur (image : Image) (radius : Q) : Image :=
  mkImage (width image) (height image) (mode image) (blur_px radius image) None.

(** [create_blurred]: the disk after the save and the path returned, [None]
    when the derivative is disabled. *)
Definition create_blurred (disk : Disk) (image : Image) (image_path : PyPath)
    (config : PipelineConfig) : outcome (Disk * option PyPath) :=
  let blur_config := blur config in
  if negb (default false (o_enabled blur_config)) then Done (disk, None) else
  blurred <~ lift (recreate_resize_image image blur_config) ;;
  match o_radius blur_config with
  | None => Failed (PyErr TypeError)
  | Some blur_radius =>
      let blurred := gaussian_blur blurred blur_radius in
      r <~ lift (generate_output_path (dirs disk) blur_config image_path None) ;;
      let (fs, output_path) := r in
      disk <~ save_file (mkDisk fs (files disk)) output_path
                (webp_encoder_check (o_quality blur_config) (o_method blur_config) (Some false))
                (WebpFile Blurred blurred) ;;
      Done (disk, Some output_path)
  end.

(** [save_webp]: the disk after the save and the output path; the file holds
    the metadata-free copy [clean_img]. *)
Definition save_webp (disk : Disk) (image : Image) (image_path : PyPath)
    (config : PipelineConfig) : outcome (Disk * PyPath) :=
  let webp_config := webp_settings config in
  r <~ lift (generate_output_path (dirs disk) webp_config image_path (Some (output_dir config))) ;;
  let (fs, output_path) := r in
  let clean_img := strip image in
  disk <~ save_file (mkDisk fs (files disk)) output_path
            (webp_encoder_check (o_quality webp_config) (o_method webp_config)
               (o_lossless webp_config))
            (WebpFile Optimized clean_img) ;;
  Done (disk, output_path).

(** The adjustment stage as the specification describes it: brightness,
    contrast, sharpness in this order, each applied when its factor is
    present and differs from 1.0. *)
Definition apply_factor (k : Enhancer) (factor : option Q) (image : Image) : Image :=
  match factor with
  | Some f => if Qeq_bool f 1 then image else enhance k image f
  | None => image
  end.

Definition documented_adjust (image : Image) (config : PipelineConfig) : Image :=
  let adj := adjustments config in
  if adjustments_enabled config then
    apply_factor Sharpness (sharpness adj)
      (apply_factor Contrast (contrast adj)
        (apply_factor Brightness (brightness adj) image))
  else image.

End Pillow.

(** ** The specification's pixel mappings of the orientation tags

    Where the pixel at [(x, y)] of a [w] x [h] image lands, and the size of
    the corrected image.  Rotations by 90 degrees are counter-clockwise, as
    Pillow's [ROTATE_90]. *)
Definition documented_mapping (tag w h x y : Z) : Z * Z :=
  if tag =? 2 then (w - 1 - x, y)
  else if tag =? 3 then (w - 1 - x, h - 1 - y)
  else if tag =? 4 then (x, h - 1 - y)
  else if tag =? 5 then (y, x)
  else if tag =? 6 then (h - 1 - y, x)
  else if tag =? 7 then (h - 1 - y, w - 1 - x)
  else if tag =? 8 then (y, w - 1 - x)
  else (x, y).

Definition documented_size (tag w h : Z) : Z * Z :=
  if (5 <=? tag) && (tag <=? 8) then (h, w) else (w, h).

(** ** Concrete inputs *)

Definition no_pixels : Z -> Z -> Pixel := fun _ _ => [].

Definition test_image (w h : Z) (ex : option (list (Z * Z))) : Image :=
  mkImage w h "RGB" (fun x y => [x; y]) ex.

Definition no_output : OutputConfig := mkOutputConfig None None None None None None None None None.

Definition base_config : PipelineConfig :=
  mkPipelineConfig true "RGB" true true true (1920, 1080)
    (mkAdjustments None None None)
    (mkWatermarkConfig None None None None None None)
    no_output no_output no_output (path_of_string "output").

Definition no_resample : Image -> Z -> Z -> Z -> Z -> Pixel := fun _ _ _ _ _ => [].

(** A scaling box with a negative maximum height. *)
Definition negative_height_config : PipelineConfig :=
  mkPipelineConfig true "RGB" true true true (100, -1)
    (mkAdjustments None None None)
    (mkWatermarkConfig None None None None None None)
    no_output no_output no_output (path_of_string "output").


(** The same configuration with the watermark opacity set to [q]. *)
Definition with_opacity (config : PipelineConfig) (q : Q) : PipelineConfig :=
  let wc := watermark config in
  {| orientation_enabled := orientation_enabled config;
     colormode := colormode config;
     scaling_enabled := scaling_enabled config;
     adjustments_enabled := adjustments_enabled config;
     colormode_enabled := colormode_enabled config;
     scaling := scaling config;
     adjustments := adjustments config;
     watermark := mkWatermarkConfig (wm_enabled wc) (wm_path wc)
                    (wm_resize_percentage wc) (wm_position wc) (wm_padding wc) (Some q);
     webp_settings := webp_settings config;
     thumbnail := thumbnail config;
     blur := blur config;
     output_dir := output_dir config |}.


Definition all_conversions : string -> string -> bool := fun _ _ => true.
Definition no_convert : string -> Image -> Z -> Z -> Pixel := fun _ _ _ _ => [].
Definition no_opacity : Q -> Image -> Z -> Z -> Pixel := fun _ _ _ _ => [].
Definition no_composite : Image -> Image -> Z * Z -> Z -> Z -> Pixel := fun _ _ _ _ _ => [].
Definition no_blur : Q -> Image -> Z -> Z -> Pixel := fun _ _ _ _ => [].
Definition no_enhance : Enhancer -> Q -> Image -> Z -> Z -> Pixel := fun _ _ _ _ _ => [].

(** A 64 x 64 RGBA watermark stored at [wm.png]. *)
Definition wm_asset : Image := mkImage 64 64 "RGBA" (fun _ _ => [255; 0; 0; 128]) None.
Definition wm_assets (path : string) : option Image :=
  if String.eqb path "wm.png" then Some wm_asset else None.

(** Watermark enabled at [wm.png], resized to 1% of the image width, no
    [opacity] key. *)
Definition small_watermark_config : PipelineConfig :=
  mkPipelineConfig true "RGB" true true true (1920, 1080)
    (mkAdjustments None None None)
    (mkWatermarkConfig (Some true) (Some "wm.png") (Some 1%Q) None None None)
    no_output no_output no_output (path_of_string "output").


(** An integer that is the floor or the ceiling of [q] (at least 1), hence
    less than one pixel away from [q] when [q] is positive. *)
Definition within_one_pixel (n : Z) (q : Q) : Prop :=
  (n = Z.max (Qfloor q) 1 \/ n = Z.max (Qceiling q) 1) /\ (Qabs (inject_Z n - q) < 1)%Q.


(** ** [process_image] *)

(** The file name [generate_output_path] gives to a source. *)
Definition output_name (config : OutputConfig) (file_path : PyPath) : string :=
  path_stem file_path ++ default "" (o_suffix config) ++ ".webp".

(** The dictionary returned by [process_image]: [thumbnail] and
    [thumbnail_size] (and the [blurred] pair) are present together or not
    at all. *)
Record ProcessResult := mkResult {
  r_source : string;
  r_source_size : Z;
  r_optimized : string;
  r_optimized_size : Z;
  r_thumbnail : option (string * Z);
  r_blurred : option (string * Z)
}.

Section Run.

Variable resample_px : Image -> Z -> Z -> Z -> Z -> Pixel.
Variable conversion_supported : string -> string -> bool.
Variable convert_px : string -> Image -> Z -> Z -> Pixel.
Variable enhance_px : Enhancer -> Q -> Image -> Z -> Z -> Pixel.
Variable blur_px : Q -> Image -> Z -> Z -> Pixel.
Variable opacity_px : Q -> Image -> Z -> Z -> Pixel.
Variable composite_px : Image -> Image -> Z * Z -> Z -> Z -> Pixel.
(** The size of the file the WebP encoder writes, and what [Image.open]
    decodes from it. *)
Variable webp_size : SaveKind -> Image -> Z.
Variable webp_decode : SaveKind -> Image -> Image.

Definition file_size (f : File) : Z :=
  match f with
  | SourceFile size _ => size
  | WebpFile k im => webp_size k im
  end.

(** [Image.open] *)
Definition open_file (f : File) : outcome Image :=
  match f with
  | SourceFile _ (Some im) => Done im
  | SourceFile _ None => Failed UnidentifiedImageError
  | WebpFile k im => Done (webp_decode k im)
  end.

(** [image_path.stat().st_size] then [Image.open(image_path)]: a directory
    has a size but cannot be opened. *)
Definition open_source (disk : Disk) (p : PyPath) : outcome (Z * Image) :=
  if is_dir disk p then Failed IsADirectoryError
  else match lookup_file (files disk) p with
       | None => Failed FileNotFoundError
       | Some f => im <~ open_file f ;; Done (file_size f, im)
       end.

(** [path.stat().st_size] *)
Definition stat_size (disk : Disk) (p : PyPath) : outcome Z :=
  match lookup_file (files disk) p with
  | Some f => Done (file_size f)
  | None => if is_dir disk p then Failed IsADirectoryError else Failed FileNotFoundError
  end.

(** [create_thumbnail]: [generate_output_path] is called twice, once for
    [save] and once for the returned path. *)
Definition create_thumbnail (disk : Disk) (image : Image) (image_path : PyPath)
    (config : PipelineConfig) : outcome (Disk * option PyPath) :=
  let thumbnail_config := thumbnail config in
  if negb (default false (o_enabled thumbnail_config)) then Done (disk, None) else
  thumb <~ lift (recreate_resize_image resample_px image thumbnail_config) ;;
  r <~ lift (generate_output_path (dirs disk) thumbnail_config image_path None) ;;
  let (fs, saved_path) := r in
  disk <~ save_file (mkDisk fs (files disk)) saved_path
            (webp_encoder_check (o_quality thumbnail_config) (o_method thumbnail_config)
               (Some false))
            (WebpFile Thumb thumb) ;;
  r <~ lift (generate_output_path (dirs disk) thumbnail_config image_path None) ;;
  let (fs, output_path) := r in
  Done (mkDisk fs (files disk), Some output_path).

(** [if path: result[key] = str(path); result[key_size] = path.stat().st_size];
    a [Path] is always truthy. *)
Definition report (disk : Disk) (p : option PyPath) : outcome (option (string * Z)) :=
  match p with
  | None => Done None
  | Some p => size <~ stat_size disk p ;; Done (Some (path_str p, size))
  end.

Definition process_image (disk : Disk) (assets : string -> option Image)
    (image_path_str : string) (config : PipelineConfig) : outcome (Disk * ProcessResult) :=
  let image_path := path_of_string image_path_str in
  s <~ open_source disk image_path ;;
  let (source_size, image) := s in
  image <~ lift (fix_colormode conversion_supported convert_px image config) ;;
  let image := fix_orientation image config in
  t <~ create_thumbnail disk image image_path config ;;
  let (disk, thumbnail_path) := t in
  b <~ create_blurred resample_px blur_px disk image image_path config ;;
  let (disk, blurred_path) := b in
  image <~ lift (scale_image resample_px image config) ;;
  let image := adjust_image enhance_px image config in
  image <~ lift (add_watermark resample_px conversion_supported convert_px opacity_px
                   composite_px assets image config) ;;
  o <~ save_webp disk image image_path config ;;
  let (disk, output_path) := o in
  optimized_size <~ stat_size disk output_path ;;
  thumbnail_entry <~ report disk thumbnail_path ;;
  blurred_entry <~ report disk blurred_path ;;
  Done (disk, mkResult (path_str image_path) source_size (path_str output_path)
                optimized_size thumbnail_entry blurred_entry).

End Run.

(** A disk holding the source [in/a.png] (1234 bytes, a 100 x 80 RGB image)
    and no directory. *)
Definition sample_disk : Disk :=
  mkDisk [] [(path_of_string "in/a.png", SourceFile 1234 (Some (test_image 100 80 None)))].

(** 32 x 32 thumbnails written to the output directory itself, without a
    suffix, and 20 x 20 blurred copies in [blurred]. *)
Definition derivatives_config : PipelineConfig :=
  mkPipelineConfig true "RGB" true true true (1920, 1080)
    (mkAdjustments None None None)
    (mkWatermarkConfig None None None None None None)
    (mkOutputConfig None None None None None None (Some 80%Q) (Some 4) (Some false))
    (mkOutputConfig (Some true) (Some 32) (Some 32) None (Some "output") None
       (Some 80%Q) (Some 4) None)
    (mkOutputConfig (Some true) (Some 20) (Some 20) (Some 2%Q) (Some "blurred") None
       (Some 60%Q) (Some 6) None)
    (path_of_string "output").

Definition sample_size : SaveKind -> Image -> Z := fun _ im => width im * height im.
Definition sample_decode : SaveKind -> Image -> Image := fun _ im => im.
Definition no_assets : string -> option Image := fun _ => None.

(** * Proofs *)

Example test_fix_orientation_3 :
  pixels (fix_orientation (test_image 4 3 (Some [(274, 3)])) base_config) 3 2 = [0; 0].
Proof. reflexivity. Qed.

Example test_fix_orientation_6 :
  let r := fix_orientation (test_image 4 3 (Some [(274, 6)])) base_config in
  (width r, height r, pixels r 2 0) = (3, 4, [0; 0]).
Proof. reflexivity. Qed.

Example test_path :
  parts (path_div (path_of_string "out/dir") (path_stem (path_of_string "/in/photo.jpg") ++ "_x.webp"))
  = ["out"; "dir"; "photo_x.webp"].
Proof. reflexivity. Qed.

(** ** C1: [fix_orientation] *)

Lemma fix_orientation_transposes (config : PipelineConfig) (image : Image) ex o :
  orientation_enabled config = true -> exif image = Some ex ->
  exif_lookup ORIENTATION_TAG ex = Some o ->
  fix_orientation image config = apply_transposes (documented_orientation o) image.
Proof.
  intros He Hx Hl. unfold fix_orientation, documented_orientation.
  rewrite He, Hx, Hl; simpl.
  destruct (o =? 2); [reflexivity|]. destruct (o =? 3); [reflexivity|].
  destruct (o =? 4); [reflexivity|]. destruct (o =? 5); [reflexivity|].
  destruct (o =? 6); [reflexivity|]. destruct (o =? 7); [reflexivity|].
  destruct (o =? 8); reflexivity.
Qed.

(** C1: with correction enabled and an orientation tag present, the
    corrected image is exactly the documented transform of the tag (tag 3
    maps [(x, y)] to [(w-1-x, h-1-y)]); tag 1, a tag outside 1..8, a
    disabled stage, no EXIF or no orientation tag leave the image as it is. *)
Theorem fix_orientation_documented (config : PipelineConfig) (image : Image) :
  (orientation_enabled config = false -> fix_orientation image config = image) /\
  (exif image = None -> fix_orientation image config = image) /\
  (forall ex, exif image = Some ex -> exif_lookup ORIENTATION_TAG ex = None ->
     fix_orientation image config = image) /\
  (forall ex o, orientation_enabled config = true -> exif image = Some ex ->
     exif_lookup ORIENTATION_TAG ex = Some o ->
     let r := fix_orientation image config in
     r = apply_transposes (documented_orientation o) image /\
     ((o = 1 \/ o < 1 \/ 8 < o) -> r = image) /\
     (width r, height r) = documented_size o (width image) (height image) /\
     (forall x y,
        let (x', y') := documented_mapping o (width image) (height image) x y in
        pixels r x' y' = pixels image x y)).
Proof.
  split; [intros H; unfold fix_orientation; rewrite H; reflexivity|].
  split; [intros H; unfold fix_orientation; rewrite H; destruct (negb _); reflexivity|].
  split; [intros ex H Hl; unfold fix_orientation; rewrite H, Hl;
          destruct (negb _); reflexivity|].
  intros ex o He Hx Hl r. unfold r.
  rewrite (fix_orientation_transposes config image ex o He Hx Hl).
  destruct image as [w h m p e]; simpl.
  unfold documented_orientation, documented_size, documented_mapping.
  destruct (Z.eqb_spec o 2); [subst; simpl; repeat split;
    [intros; lia | intros x y; f_equal; lia]|].
  destruct (Z.eqb_spec o 3); [subst; simpl; repeat split;
    [intros; lia | intros x y; f_equal; lia]|].
  destruct (Z.eqb_spec o 4); [subst; simpl; repeat split;
    [intros; lia | intros x y; f_equal; lia]|].
  destruct (Z.eqb_spec o 5); [subst; simpl; repeat split;
    [intros; lia | intros x y; f_equal; lia]|].
  destruct (Z.eqb_spec o 6); [subst; simpl; repeat split;
    [intros; lia | intros x y; f_equal; lia]|].
  destruct (Z.eqb_spec o 7); [subst; simpl; repeat split;
    [intros; lia | intros x y; f_equal; lia]|].
  destruct (Z.eqb_spec o 8); [subst; simpl; repeat split;
    [intros; lia | intros x y; f_equal; lia]|].
  simpl. repeat split.
  replace ((5 <=? o) && (o <=? 8)) with false; [reflexivity|].
  symmetry; apply andb_false_iff.
  destruct (Z.leb_spec 5 o); [right; apply Z.leb_gt; lia | left; reflexivity].
Qed.

(** ** The size arithmetic of [Image.thumbnail] *)

Lemma Qdiv_inject (a b : Z) : 0 < b -> (inject_Z a / inject_Z b == a # Z.to_pos b)%Q.
Proof.
  intros Hb. destruct b as [|pb|pb]; try lia.
  unfold Qeq, Qdiv, Qinv, inject_Z; simpl. lia.
Qed.

Lemma Qdiv_lt_le (a b c d : Z) : 0 < b -> 0 < d ->
  (inject_Z a / inject_Z b <= inject_Z c / inject_Z d)%Q <-> a * d <= c * b.
Proof.
  intros Hb Hd. rewrite (Qdiv_inject a b), (Qdiv_inject c d) by lia.
  unfold Qle; simpl. rewrite !Z2Pos.id by lia. reflexivity.
Qed.

Lemma inject_Z_nonzero (a : Z) : a <> 0 -> ~ (inject_Z a == 0)%Q.
Proof. intros Ha H. unfold Qeq in H; simpl in H. lia. Qed.

Lemma Qdiv_le_inject (a b m : Z) : 0 < b -> a <= m * b ->
  (inject_Z a / inject_Z b <= inject_Z m)%Q.
Proof.
  intros Hb H. rewrite (Qdiv_inject a b) by lia.
  unfold Qle; simpl. rewrite Z2Pos.id by lia. lia.
Qed.

Lemma round_aspect_le (q : Q) key (m : Z) : (q <= inject_Z m)%Q -> 1 <= m ->
  round_aspect q key <= m.
Proof.
  intros Hq Hm. unfold round_aspect.
  pose proof (Qfloor_resp_le _ _ Hq) as Hf. pose proof (Qceiling_resp_le _ _ Hq) as Hc.
  rewrite Qfloor_Z in Hf. rewrite Qceiling_Z in Hc.
  destruct (Qle_bool _ _); lia.
Qed.

Lemma round_aspect_ge_1 (q : Q) key : 1 <= round_aspect q key.
Proof. unfold round_aspect. lia. Qed.

Lemma round_aspect_choice (q : Q) key :
  round_aspect q key = Z.max (Qfloor q) 1 \/ round_aspect q key = Z.max (Qceiling q) 1.
Proof. unfold round_aspect. destruct (Qle_bool _ _); auto. Qed.

(** The first branch of [preserve_aspect_ratio]: [y * aspect] with
    [aspect = w / h] is [y * w / h]. *)
Lemma aspect_mul (y w h : Z) : 0 < h ->
  (inject_Z y * (inject_Z w / inject_Z h) == inject_Z (y * w) / inject_Z h)%Q.
Proof.
  intros Hh. rewrite inject_Z_mult. field. apply inject_Z_nonzero; lia.
Qed.

(** The second branch: [x / aspect] is [x * h / w]. *)
Lemma aspect_div (x w h : Z) : 0 < w -> 0 < h ->
  (inject_Z x / (inject_Z w / inject_Z h) == inject_Z (x * h) / inject_Z w)%Q.
Proof.
  intros Hw Hh. rewrite inject_Z_mult. field.
  split; apply inject_Z_nonzero; lia.
Qed.

(** Whenever [preserve_aspect_ratio] computes a size for an image that does
    not fit a box of non-negative height, the size is no larger than the
    image. *)
Lemma preserve_aspect_ratio_le (w h x y fw fh : Z) :
  1 <= w -> 1 <= h -> 0 <= y -> (x < w \/ y < h) ->
  preserve_aspect_ratio w h x y = Ok (Some (fw, fh)) -> fw <= w /\ fh <= h.
Proof.
  intros Hw Hh Hy Hfit. unfold preserve_aspect_ratio.
  destruct ((w <=? x) && (h <=? y)); [discriminate|].
  destruct (Z.eqb_spec h 0); [lia|].
  destruct (Z.eqb_spec y 0); [discriminate|].
  destruct (Qle_bool _ _) eqn:Hb.
  - intros Hr. injection Hr as <- <-.
    apply Qle_bool_iff in Hb.
    apply (proj1 (Qdiv_lt_le w h x y ltac:(lia) ltac:(lia))) in Hb.
    assert (y <= h).
    { destruct (Z.le_gt_cases y h) as [|Hgt]; [assumption|exfalso].
      destruct Hfit as [Hx|]; [|lia].
      assert (0 < (w - x) * h) by (apply Z.mul_pos_pos; lia).
      assert (0 < w * (y - h)) by (apply Z.mul_pos_pos; lia). nia. }
    split; [|lia]. apply round_aspect_le; [|lia].
    rewrite aspect_mul by lia. apply Qdiv_le_inject; nia.
  - destruct (Qeq_bool _ _); [discriminate|].
    intros Hr. injection Hr as <- <-.
    assert (Hlt : ~ (w * y <= x * h)).
    { intro H. apply (proj2 (Qdiv_lt_le w h x y ltac:(lia) ltac:(lia))) in H.
      apply Qle_bool_iff in H. congruence. }
    assert (x < w).
    { destruct (Z.le_gt_cases w x) as [Hge|]; [exfalso|assumption].
      destruct Hfit as [|Hy']; [lia|].
      assert (0 <= (x - w) * h) by (apply Z.mul_nonneg_nonneg; lia).
      assert (0 < w * (h - y)) by (apply Z.mul_pos_pos; lia). nia. }
    split; [lia|]. apply round_aspect_le; [|lia].
    rewrite aspect_div by lia. apply Qdiv_le_inject; nia.
Qed.

Lemma Qdiv_pos (a b : Z) : 0 < a -> 0 < b -> (0 < inject_Z a / inject_Z b)%Q.
Proof. intros Ha Hb. rewrite Qdiv_inject by lia. unfold Qlt; simpl. lia. Qed.

Lemma within_one_pixel_round (q : Q) key :
  (0 < q)%Q -> within_one_pixel (round_aspect q key) q.
Proof.
  intros Hq. pose proof (Qfloor_le q) as F1. pose proof (Qlt_floor q) as F2.
  pose proof (Qle_ceiling q) as C1. pose proof (Qceiling_lt q) as C2.
  rewrite inject_Z_plus in F2. unfold Z.sub in C2. rewrite inject_Z_plus in C2.
  change (inject_Z 1) with 1%Q in F2. change (inject_Z (- (1))) with (- (1))%Q in C2.
  split; [apply round_aspect_choice|].
  apply Qabs_Qlt_condition.
  destruct (round_aspect_choice q key) as [E|E]; rewrite E.
  - destruct (Z.max_spec (Qfloor q) 1) as [[Hlt Hm]|[Hge Hm]]; rewrite Hm.
    + assert (inject_Z (Qfloor q) <= 0)%Q
        by (change 0%Q with (inject_Z 0); rewrite <- Zle_Qle; lia).
      change (inject_Z 1) with 1%Q. split; lra.
    + split; lra.
  - destruct (Z.max_spec (Qceiling q) 1) as [[Hlt Hm]|[Hge Hm]]; rewrite Hm.
    + assert (inject_Z (Qceiling q) <= 0)%Q
        by (change 0%Q with (inject_Z 0); rewrite <- Zle_Qle; lia).
      exfalso; lra.
    + split; lra.
Qed.

Lemma within_one_pixel_exact (n : Z) (q : Q) :
  (inject_Z n == q)%Q -> 1 <= n -> within_one_pixel n q.
Proof.
  intros H Hn. split.
  - left. rewrite <- H, Qfloor_Z. lia.
  - apply Qabs_Qlt_condition. split; lra.
Qed.

Lemma within_one_pixel_compat (n : Z) (q q' : Q) :
  (q == q')%Q -> within_one_pixel n q -> within_one_pixel n q'.
Proof.
  intros H [C A]. split.
  - rewrite <- H. exact C.
  - apply Qabs_Qlt_condition in A. apply Qabs_Qlt_condition. split; lra.
Qed.

(** When the image exceeds a box of positive size, the computed size scales
    both sides by [s = min(x/w, y/h)]: one side becomes its bound, each side is
    the floor or the ceiling of its scaled length. *)
Lemma preserve_aspect_ratio_uniform (w h x y : Z) :
  1 <= w -> 1 <= h -> 1 <= x -> 1 <= y -> (x < w \/ y < h) ->
  let s := Qmin (inject_Z x / inject_Z w) (inject_Z y / inject_Z h) in
  exists fw fh, preserve_aspect_ratio w h x y = Ok (Some (fw, fh)) /\
    1 <= fw /\ 1 <= fh /\ (fw = x \/ fh = y) /\
    within_one_pixel fw (inject_Z w * s) /\ within_one_pixel fh (inject_Z h * s).
Proof.
  intros Hw Hh Hx Hy Hfit s. unfold preserve_aspect_ratio.
  replace ((w <=? x) && (h <=? y)) with false
    by (symmetry; apply andb_false_iff; destruct Hfit; [left|right]; apply Z.leb_gt; lia).
  replace (h =? 0) with false by (symmetry; apply Z.eqb_neq; lia).
  replace (y =? 0) with false by (symmetry; apply Z.eqb_neq; lia).
  destruct (Qle_bool _ _) eqn:Hb.
  - apply Qle_bool_iff in Hb.
    pose proof (proj1 (Qdiv_lt_le w h x y ltac:(lia) ltac:(lia)) Hb) as Hz.
    assert (Hs : (s == inject_Z y / inject_Z h)%Q).
    { unfold s. apply Q.min_r. apply (proj2 (Qdiv_lt_le y h x w ltac:(lia) ltac:(lia))). lia. }
    eexists _, y. split; [reflexivity|].
    split; [apply round_aspect_ge_1|]. split; [lia|]. split; [right; reflexivity|].
    split.
    + apply (within_one_pixel_compat _ (inject_Z y * (inject_Z w / inject_Z h))).
      { rewrite Hs. field. apply inject_Z_nonzero; lia. }
      apply within_one_pixel_round. rewrite aspect_mul by lia. apply Qdiv_pos; nia.
    + apply within_one_pixel_exact; [|lia]. rewrite Hs. field. apply inject_Z_nonzero; lia.
  - assert (Hz : ~ (w * y <= x * h)).
    { intro H. apply (proj2 (Qdiv_lt_le w h x y ltac:(lia) ltac:(lia))) in H.
      apply Qle_bool_iff in H. congruence. }
    destruct (Qeq_bool _ _) eqn:Hq.
    { apply Qeq_bool_iff in Hq. pose proof (Qdiv_pos w h ltac:(lia) ltac:(lia)). lra. }
    assert (Hs : (s == inject_Z x / inject_Z w)%Q).
    { unfold s. apply Q.min_l. apply (proj2 (Qdiv_lt_le x w y h ltac:(lia) ltac:(lia))). lia. }
    eexists x, _. split; [reflexivity|].
    split; [lia|]. split; [apply round_aspect_ge_1|]. split; [left; reflexivity|].
    split.
    + apply within_one_pixel_exact; [|lia]. rewrite Hs. field. apply inject_Z_nonzero; lia.
    + apply (within_one_pixel_compat _ (inject_Z x / (inject_Z w / inject_Z h))).
      { rewrite Hs. field. split; apply inject_Z_nonzero; lia. }
      apply within_one_pixel_round. rewrite aspect_div by lia. apply Qdiv_pos; nia.
Qed.






Section PillowFacts.

Variable resample_px : Image -> Z -> Z -> Z -> Z -> Pixel.

Lemma thumbnail_inplace_cases (image image' : Image) (x y : Z) :
  thumbnail_inplace resample_px image (x, y) = Ok image' ->
  image' = image \/
  preserve_aspect_ratio (width image) (height image) x y
    = Ok (Some (width image', height image')).
Proof.
  unfold thumbnail_inplace.
  destruct (preserve_aspect_ratio _ _ _ _) as [[[fw fh]|]|e] eqn:Hp; simpl;
    [|intros H; injection H; auto|discriminate].
  destruct ((fw =? width image) && (fh =? height image)) eqn:Heq.
  - intros H; injection H; auto.
  - unfold resize. rewrite Heq.
    destruct (true && ((fw =? 0) || (fh =? 0))); [discriminate|].
    destruct ((fw <? 1) || (fh <? 1)); [discriminate|].
    simpl. intros H. injection H as <-. right. reflexivity.
Qed.

Lemma thumbnail_inplace_size (image : Image) (x y fw fh : Z) :
  preserve_aspect_ratio (width image) (height image) x y = Ok (Some (fw, fh)) ->
  1 <= fw -> 1 <= fh ->
  exists image', thumbnail_inplace resample_px image (x, y) = Ok image' /\
                 width image' = fw /\ height image' = fh.
Proof.
  intros Hp Hfw Hfh. unfold thumbnail_inplace. rewrite Hp. simpl.
  destruct ((fw =? width image) && (fh =? height image)) eqn:Heq.
  - exists image. apply andb_true_iff in Heq as [H1 H2].
    apply Z.eqb_eq in H1, H2. auto.
  - unfold resize. rewrite Heq.
    replace (true && ((fw =? 0) || (fh =? 0))) with false
      by (symmetry; apply orb_false_iff; split; apply Z.eqb_neq; lia).
    replace ((fw <? 1) || (fh <? 1)) with false
      by (symmetry; apply orb_false_iff; split; apply Z.ltb_ge; lia).
    simpl. eexists; split; [reflexivity|]. auto.
Qed.

(** X14: for an image of positive size and a maximum box of non-negative
    height, [scale_image] never yields a larger width or height (it returns a
    no larger image or raises); when scaling is disabled or the image fits the
    box it returns the input image itself. *)
Theorem scale_image_never_enlarges (config : PipelineConfig) (image : Image) :
  1 <= width image -> 1 <= height image -> 0 <= snd (scaling config) ->
  (forall image', scale_image resample_px image config = Ok image' ->
     width image' <= width image /\ height image' <= height image) /\
  ((scaling_enabled config = false \/
    (width image <= fst (scaling config) /\ height image <= snd (scaling config))) ->
   scale_image resample_px image config = Ok image).
Proof.
  intros Hw Hh Hy. unfold scale_image.
  destruct (scaling config) as [mx my] eqn:Hs; simpl in *.
  split.
  - intros image'. destruct (negb (scaling_enabled config)).
    + intros H; inversion H; subst; lia.
    + destruct ((mx <? width image) || (my <? height image)) eqn:Hb.
      * intros H. apply thumbnail_inplace_cases in H as [->|Hp]; [lia|].
        apply (preserve_aspect_ratio_le _ _ mx my); try assumption.
        apply orb_true_iff in Hb; destruct Hb as [Hb|Hb]; apply Z.ltb_lt in Hb; lia.
      * intros H; inversion H; subst; lia.
  - intros [Hd|[Hx Hy']].
    + rewrite Hd. reflexivity.
    + destruct (negb _); [reflexivity|].
      replace ((mx <? width image) || (my <? height image)) with false; [reflexivity|].
      symmetry. apply orb_false_iff; split; apply Z.ltb_ge; lia.
Qed.


End PillowFacts.

Lemma scale_image_never_enlarges_witness :
  exists image', scale_image no_resample (test_image 4000 3000 None) base_config = Ok image' /\
     width image' <= 4000 /\ height image' <= 3000.
Proof.
  destruct (scale_image no_resample (test_image 4000 3000 None) base_config)
    as [image'|e] eqn:E; [|vm_compute in E; discriminate E].
  exists image'. split; [reflexivity|].
  exact (proj1 (scale_image_never_enlarges no_resample base_config
                  (test_image 4000 3000 None) ltac:(simpl; lia) ltac:(simpl; lia)
                  ltac:(simpl; lia)) image' E).
Defined.

(** C2: the code breaks the documented guarantee that no upscaling ever
    occurs.  With a box of negative maximum height the 10 x 10 image exceeds
    the box (10 > -1), so [scale_image] calls [thumbnail], which enlarges it
    to 100 x 100. *)
Lemma scale_image_enlarges_with_negative_height :
  scale_image no_resample (test_image 10 10 None) negative_height_config
    = Ok (mkImage 100 100 "RGB" (fun _ _ => []) None) /\
  ~ (forall image', scale_image no_resample (test_image 10 10 None) negative_height_config
                      = Ok image' ->
       width image' <= 10 /\ height image' <= 10).
Proof.
  assert (E : scale_image no_resample (test_image 10 10 None) negative_height_config
              = Ok (mkImage 100 100 "RGB" (fun _ _ => []) None)) by (vm_compute; reflexivity).
  split; [exact E|]. intros H. destruct (H _ E) as [H1 _]. simpl in H1. lia.
Qed.



(** ** C3: the watermark placement *)

(** C3: bottom-right with padding 10 places a 100 x 50 watermark on a
    1000 x 800 image at (890, 740); in general each named position keeps
    [padding] pixels from its edges, center halves the remaining space with
    floor division, and an unrecognised position is top-left. *)
Theorem watermark_position_documented :
  watermark_position (Some "bottom-right") (Some 10)
    (test_image 1000 800 None) (test_image 100 50 None) = (890, 740) /\
  forall (padding : Z) (image wm : Image),
    let dx := width image - width wm in
    let dy := height image - height wm in
    watermark_position (Some "top-left") (Some padding) image wm = (padding, padding) /\
    watermark_position (Some "top-right") (Some padding) image wm = (dx - padding, padding) /\
    watermark_position (Some "bottom-left") (Some padding) image wm = (padding, dy - padding) /\
    watermark_position (Some "bottom-right") (Some padding) image wm
      = (dx - padding, dy - padding) /\
    (let (cx, cy) := watermark_position (Some "center") (Some padding) image wm in
     2 * cx <= dx < 2 * cx + 2 /\ 2 * cy <= dy < 2 * cy + 2) /\
    (forall position,
       ~ In position ["top-left"; "top-right"; "bottom-left"; "bottom-right"; "center"] ->
       watermark_position (Some position) (Some padding) image wm = (padding, padding)).
Proof.
  split; [reflexivity|]. intros padding image wm dx dy.
  split; [reflexivity|]. split; [reflexivity|]. split; [reflexivity|].
  split; [reflexivity|]. split.
  - change (watermark_position (Some "center") (Some padding) image wm)
      with ((width image - width wm) / 2, (height image - height wm) / 2).
    unfold dx, dy. cbv beta iota. Z.div_mod_to_equations. split; lia.
  - intros position Hn. unfold watermark_position; simpl.
    destruct (String.eqb_spec position "top-left"); [reflexivity|].
    destruct (String.eqb_spec position "top-right") as [->|];
      [exfalso; apply Hn; simpl; tauto|].
    destruct (String.eqb_spec position "bottom-left") as [->|];
      [exfalso; apply Hn; simpl; tauto|].
    destruct (String.eqb_spec position "bottom-right") as [->|];
      [exfalso; apply Hn; simpl; tauto|].
    destruct (String.eqb_spec position "center") as [->|];
      [exfalso; apply Hn; simpl; tauto|].
    reflexivity.
Qed.

Section StageFacts.

Variable resample_px : Image -> Z -> Z -> Z -> Z -> Pixel.
Variable conversion_supported : string -> string -> bool.
Variable convert_px : string -> Image -> Z -> Z -> Pixel.
Variable enhance_px : Enhancer -> Q -> Image -> Z -> Z -> Pixel.
Variable opacity_px : Q -> Image -> Z -> Z -> Pixel.
Variable composite_px : Image -> Image -> Z * Z -> Z -> Z -> Pixel.


(** C7: with normalisation disabled the image is returned as it is; for a
    target RGB or RGBA an RGBA image is kept, an LA image is converted to
    RGBA and any other image to the target; the target GRAY converts to L;
    any other target is a direct conversion. *)
Theorem fix_colormode_policy (image : Image) (config : PipelineConfig) :
  let fixc := fix_colormode conversion_supported convert_px in
  (colormode_enabled config = false -> fixc image config = Ok image) /\
  (colormode_enabled config = true ->
     ((colormode config = "RGB" \/ colormode config = "RGBA") ->
        (mode image = "RGBA" -> fixc image config = Ok image) /\
        (mode image = "LA" -> fixc image config = convert conversion_supported convert_px image "RGBA") /\
        (mode image <> "RGBA" -> mode image <> "LA" ->
           fixc image config = convert conversion_supported convert_px image (colormode config))) /\
     (colormode config = "GRAY" -> fixc image config = convert conversion_supported convert_px image "L") /\
     (colormode config <> "RGB" -> colormode config <> "RGBA" -> colormode config <> "GRAY" ->
        fixc image config = convert conversion_supported convert_px image (colormode config))).
Proof.
  intros fixc. unfold fixc, fix_colormode. split; [intros H; rewrite H; reflexivity|].
  intros H. rewrite H. simpl. split; [|split].
  - intros Hc.
    replace (String.eqb (colormode config) "RGB" || String.eqb (colormode config) "RGBA")
      with true by (destruct Hc as [-> | ->]; reflexivity).
    split; [|split].
    + intros ->. reflexivity.
    + intros ->. reflexivity.
    + intros H1 H2. apply String.eqb_neq in H1, H2. rewrite H1, H2. reflexivity.
  - intros ->. reflexivity.
  - intros H1 H2 H3. apply String.eqb_neq in H1, H2, H3. rewrite H1, H2, H3. reflexivity.
Qed.

(** C8: [adjust_image] is the documented stage (brightness, contrast,
    sharpness in this order, each only when its factor is present and not
    1.0); disabled, or with every factor 1.0 or absent, it returns the
    input image. *)
Theorem adjust_image_documented (image : Image) (config : PipelineConfig) :
  let neutral (f : option Q) := forall q, f = Some q -> (q == 1)%Q in
  adjust_image enhance_px image config = documented_adjust enhance_px image config /\
  ((adjustments_enabled config = false \/
    (neutral (brightness (adjustments config)) /\ neutral (contrast (adjustments config)) /\
     neutral (sharpness (adjustments config)))) ->
   adjust_image enhance_px image config = image).
Proof.
  intros neutral.
  assert (Eq : adjust_image enhance_px image config = documented_adjust enhance_px image config).
  { unfold adjust_image, documented_adjust, apply_factor.
    destruct (adjustments_enabled config); [|reflexivity]. simpl.
    destruct (adjustments config) as [b c sh]; simpl.
    destruct b as [qb|]; simpl; [destruct (Qeq_bool qb 1); simpl|];
    destruct c as [qc|]; simpl; try (destruct (Qeq_bool qc 1); simpl);
    destruct sh as [qs|]; simpl; try (destruct (Qeq_bool qs 1); simpl); reflexivity. }
  split; [exact Eq|]. rewrite Eq. unfold documented_adjust, apply_factor.
  intros [Hd|(Hb & Hc & Hs)]; [rewrite Hd; reflexivity|].
  destruct (adjustments_enabled config); [|reflexivity].
  destruct (brightness (adjustments config)) as [qb|];
    [rewrite (proj2 (Qeq_bool_iff qb 1) (Hb qb eq_refl))|].
  all: destruct (contrast (adjustments config)) as [qc|];
    [rewrite (proj2 (Qeq_bool_iff qc 1) (Hc qc eq_refl))|].
  all: destruct (sharpness (adjustments config)) as [qs|];
    [rewrite (proj2 (Qeq_bool_iff qs 1) (Hs qs eq_refl))|].
  all: reflexivity.
Qed.

(** C9: with the stage disabled, or with a configured watermark file that
    does not exist, [add_watermark] returns the input image itself and raises
    nothing. *)
Theorem add_watermark_noop (assets : string -> option Image) (image : Image)
    (config : PipelineConfig) :
  (default false (wm_enabled (watermark config)) = false ->
     add_watermark resample_px conversion_supported convert_px opacity_px composite_px assets image config = Ok image) /\
  (forall path, wm_path (watermark config) = Some path -> assets path = None ->
     add_watermark resample_px conversion_supported convert_px opacity_px composite_px assets image config = Ok image).
Proof.
  unfold add_watermark. split.
  - intros H. rewrite H. reflexivity.
  - intros path Hp Ha. destruct (default false _); [|reflexivity]. simpl.
    rewrite Hp, Ha. reflexivity.
Qed.

(** A resize percentage whose watermark width [int(width * percentage / 100)]
    is 0 makes [resize] refuse the size before the opacity is read. *)
Lemma add_watermark_zero_width (assets : string -> option Image) (image : Image)
    (config : PipelineConfig) (path : string) (asset : Image) (rp : Q) :
  default false (wm_enabled (watermark config)) = true ->
  wm_path (watermark config) = Some path -> assets path = Some asset ->
  wm_resize_percentage (watermark config) = Some rp -> (0 < rp)%Q ->
  py_int (inject_Z (width image) * (rp / 100))%Q = 0 -> width asset <> 0 ->
  add_watermark resample_px conversion_supported convert_px opacity_px composite_px
    assets image config = Err ValueError.
Proof.
  intros He Hp Ha Hr Hpos Hz Hw. unfold add_watermark.
  rewrite He, Hp, Ha, Hr. simpl.
  destruct (convert conversion_supported convert_px asset "RGBA") as [wm|e] eqn:Hc.
  - assert (Ew : width wm = width asset).
    { unfold convert in Hc.
      destruct (String.eqb _ _); [|destruct (conversion_supported _ _)];
        inversion Hc; reflexivity. }
    simpl. replace (Qltb 0 rp) with true
      by (symmetry; unfold Qltb; apply negb_true_iff, not_true_iff_false;
          intro H; apply Qle_bool_iff in H; apply (Qlt_not_le _ _ Hpos H)).
    cbv zeta. rewrite Hz.
    replace (width wm =? 0) with false by (symmetry; apply Z.eqb_neq; lia).
    unfold resize. replace (0 =? width wm) with false by (symmetry; apply Z.eqb_neq; lia).
    reflexivity.
  - unfold convert in Hc.
    destruct (String.eqb _ _); [discriminate Hc|].
    destruct (conversion_supported _ _); inversion Hc; reflexivity.
Qed.

(** C10 (as amended): with the stage enabled, an existing watermark file and
    no [opacity] key, [add_watermark] always raises and never applies a
    default opacity.  The error is the [TypeError] of [None < 1.0] whenever
    the steps before the comparison succeed: in particular whenever the same
    configuration with an explicit opacity succeeds, and whenever the asset
    converts to RGBA and no resize is requested.  When a positive
    [resize_percentage] gives [int(width * resize_percentage / 100) = 0] (for
    an asset of non-zero width), [resize] raises [ValueError] before the
    opacity is read. *)
Theorem add_watermark_requires_opacity (assets : string -> option Image) (image : Image)
    (config : PipelineConfig) (path : string) (asset : Image) :
  default false (wm_enabled (watermark config)) = true ->
  wm_path (watermark config) = Some path -> assets path = Some asset ->
  wm_opacity (watermark config) = None ->
  let add := add_watermark resample_px conversion_supported convert_px opacity_px
               composite_px assets in
  (exists e, add image config = Err e) /\
  (forall q image', add image (with_opacity config q) = Ok image' ->
     add image config = Err TypeError) /\
  ((forall rp, wm_resize_percentage (watermark config) = Some rp -> (rp <= 0)%Q) ->
   (exists wm, convert conversion_supported convert_px asset "RGBA" = Ok wm) ->
   add image config = Err TypeError) /\
  (forall rp, wm_resize_percentage (watermark config) = Some rp -> (0 < rp)%Q ->
   py_int (inject_Z (width image) * (rp / 100))%Q = 0 -> width asset <> 0 ->
   add image config = Err ValueError).
Proof.
  intros He Hp Ha Ho add.
  assert (D : forall rp, wm_resize_percentage (watermark config) = Some rp -> (0 < rp)%Q ->
            py_int (inject_Z (width image) * (rp / 100))%Q = 0 -> width asset <> 0 ->
            add image config = Err ValueError)
    by (intros rp Hr Hpos Hz Hw; exact (add_watermark_zero_width _ _ _ _ _ rp He Hp Ha Hr Hpos Hz Hw)).
  cut ((exists e, add image config = Err e) /\
       (forall q image', add image (with_opacity config q) = Ok image' ->
          add image config = Err TypeError) /\
       ((forall rp, wm_resize_percentage (watermark config) = Some rp -> (rp <= 0)%Q) ->
        (exists wm, convert conversion_supported convert_px asset "RGBA" = Ok wm) ->
        add image config = Err TypeError));
    [intros (A & B & C); auto|].
  clear D. unfold add, add_watermark, with_opacity. simpl.
  rewrite He, Hp, Ha, Ho. unfold bind. simpl.
  destruct (convert conversion_supported convert_px asset "RGBA") as [wm|e] eqn:Hc;
    simpl.
  - destruct (Qltb 0 (default 0%Q (wm_resize_percentage (watermark config)))) eqn:Hr.
    + destruct (width wm =? 0); simpl.
      * split; [eauto|]. split; [intros q image' H; discriminate H|].
        intros Hrp. exfalso.
        destruct (wm_resize_percentage (watermark config)) as [rp|]; simpl in Hr;
          [|discriminate Hr].
        specialize (Hrp rp eq_refl). unfold Qltb in Hr.
        apply negb_true_iff in Hr.
        assert (~ (rp <= 0)%Q) by (intro H; apply Qle_bool_iff in H; congruence).
        contradiction.
      * destruct (resize _ _ _ _); simpl.
        -- split; [eauto|]. split; [reflexivity|]. reflexivity.
        -- split; [eauto|]. split; [intros q image' H; discriminate H|].
           intros Hrp. exfalso.
           destruct (wm_resize_percentage (watermark config)) as [rp|]; simpl in Hr;
             [|discriminate Hr].
           specialize (Hrp rp eq_refl). unfold Qltb in Hr.
           apply negb_true_iff in Hr.
           assert (~ (rp <= 0)%Q) by (intro H; apply Qle_bool_iff in H; congruence).
           contradiction.
    + split; [eauto|]. split; reflexivity.
  - split; [eauto|]. split; [intros q image' H; discriminate H|].
    intros _ [wm' Hwm]. discriminate Hwm.
Qed.

End StageFacts.

Lemma add_watermark_requires_opacity_witness :
  (exists e, add_watermark no_resample all_conversions no_convert no_opacity no_composite
               wm_assets (test_image 50 50 None) small_watermark_config = Err e) /\
  add_watermark no_resample all_conversions no_convert no_opacity no_composite
    wm_assets (test_image 50 50 None) small_watermark_config = Err ValueError.
Proof.
  pose proof (add_watermark_requires_opacity no_resample all_conversions no_convert
                no_opacity no_composite wm_assets (test_image 50 50 None)
                small_watermark_config "wm.png" wm_asset eq_refl eq_refl eq_refl eq_refl)
    as (A & _ & _ & D).
  split; [exact A|].
  apply (D 1%Q); [reflexivity | reflexivity | vm_compute; reflexivity | discriminate].
Defined.

(** C10 fails as stated: on a 50 x 50 image a watermark resized to 1% of the
    width gets the size int(0.5) x 0 = 0 x 0, and [resize] raises
    [ValueError] before the opacity is read. *)
Lemma add_watermark_small_image_value_error :
  add_watermark no_resample all_conversions no_convert no_opacity no_composite
    wm_assets (test_image 50 50 None) small_watermark_config = Err ValueError.
Proof. vm_compute. reflexivity. Qed.

(** ** C4: output paths *)

Lemma path_eqb_eq (p q : PyPath) : path_eqb p q = true -> p = q.
Proof.
  destruct p as [a l1], q as [b l2]. unfold path_eqb; simpl.
  intros H. apply andb_true_iff in H as [Hab Hl].
  apply Bool.eqb_prop in Hab. subst b. f_equal.
  revert l2 Hl. induction l1 as [|x l1 IH]; intros [|y l2] Hl; try discriminate; [reflexivity|].
  apply andb_true_iff in Hl as [Hxy Hl]. apply String.eqb_eq in Hxy. subst y.
  f_equal. apply IH. exact Hl.
Qed.

Lemma mkdir_step_keeps (l : list PyPath) (fs : FS) :
  (forall d, In d fs ->
     In d (fold_left (fun fs q => if existsb (path_eqb q) fs then fs else (fs ++ [q])%list) l fs)) /\
  (forall q, In q l ->
     In q (fold_left (fun fs q => if existsb (path_eqb q) fs then fs else (fs ++ [q])%list) l fs)).
Proof.
  revert fs. induction l as [|q l IH]; intros fs; simpl; [split; [auto|contradiction]|].
  destruct (IH (if existsb (path_eqb q) fs then fs else (fs ++ [q])%list)) as [K A].
  split.
  - intros d Hd. apply K. destruct (existsb _ _); [exact Hd|]. apply in_or_app; left; exact Hd.
  - intros q0 [Hq0|Hq]; [subst q0|apply A; exact Hq].
    apply K. destruct (existsb (path_eqb q) fs) eqn:E.
    + apply existsb_exists in E as [d [Hd Heq]]. apply path_eqb_eq in Heq. subst d. exact Hd.
    + apply in_or_app; right; left; reflexivity.
Qed.

(** [mkdir(parents=True, exist_ok=True)] keeps every directory and creates
    every ancestor of the path and the path itself. *)
Lemma mkdir_parents_spec (fs : FS) (p : PyPath) :
  (forall d, In d fs -> In d (mkdir_parents fs p)) /\
  (forall n, (1 <= n <= length (parts p))%nat ->
     In (mkPath (anchored p) (firstn n (parts p))) (mkdir_parents fs p)).
Proof.
  destruct (mkdir_step_keeps (ancestors p) fs) as [K A]. split; [exact K|].
  intros n Hn. apply A. unfold ancestors.
  apply (in_map (fun n => mkPath (anchored p) (firstn n (parts p)))). apply in_seq. lia.
Qed.







Lemma path_eqb_refl (p : PyPath) : path_eqb p p = true.
Proof.
  destruct p as [a l]. unfold path_eqb; simpl.
  rewrite Bool.eqb_reflx. simpl. induction l as [|x l IH]; [reflexivity|].
  rewrite String.eqb_refl. exact IH.
Qed.

Lemma path_eqb_false (p q : PyPath) : p <> q -> path_eqb p q = false.
Proof.
  intros H. destruct (path_eqb p q) eqn:E; [|reflexivity].
  apply path_eqb_eq in E. contradiction.
Qed.

Lemma mkdir_noop (l : list PyPath) (fs : FS) :
  (forall q, In q l -> In q fs) ->
  fold_left (fun fs q => if existsb (path_eqb q) fs then fs else (fs ++ [q])%list) l fs = fs.
Proof.
  revert fs. induction l as [|q l IH]; intros fs H; [reflexivity|]. simpl.
  replace (existsb (path_eqb q) fs) with true.
  - apply IH. intros q' Hq'. apply H. right. exact Hq'.
  - symmetry. apply existsb_exists. exists q. split; [apply H; left; reflexivity|].
    apply path_eqb_refl.
Qed.

(** [mkdir(parents=True, exist_ok=True)] a second time changes nothing. *)
Lemma mkdir_parents_idem (fs : FS) (p : PyPath) :
  mkdir_parents (mkdir_parents fs p) p = mkdir_parents fs p.
Proof.
  unfold mkdir_parents at 1. apply mkdir_noop.
  intros q Hq. exact (proj2 (mkdir_step_keeps (ancestors p) fs) q Hq).
Qed.

Lemma lookup_write_same (l : list (PyPath * File)) (p : PyPath) (f : File) :
  lookup_file (write_file l p f) p = Some f.
Proof. simpl. rewrite path_eqb_refl. reflexivity. Qed.

Lemma lookup_write_other (l : list (PyPath * File)) (p q : PyPath) (f : File) :
  p <> q -> lookup_file (write_file l p f) q = lookup_file l q.
Proof.
  intros Hpq. simpl. rewrite (path_eqb_false _ _ Hpq).
  induction l as [|[r g] l IH]; [reflexivity|]. simpl.
  destruct (path_eqb r p) eqn:Erp; simpl.
  - apply path_eqb_eq in Erp. subst r. rewrite (path_eqb_false _ _ Hpq). exact IH.
  - destruct (path_eqb r q); [reflexivity|exact IH].
Qed.








Lemma save_file_done (disk disk' : Disk) (p : PyPath) (e : result unit) (f : File) :
  save_file disk p e f = Done disk' ->
  is_dir disk p = false /\ is_dir disk (parent p) = true /\ e = Ok tt /\
  disk' = mkDisk (dirs disk) (write_file (files disk) p f).
Proof.
  unfold save_file. destruct (is_dir disk p); [discriminate|].
  destruct (is_dir disk (parent p)); [|discriminate]. simpl.
  destruct e as [[]|e]; [|discriminate]. intros H; injection H as <-. auto.
Qed.





Lemma save_webp_eq (disk : Disk) (image : Image) (ip : PyPath) (config : PipelineConfig) :
  let out := path_div (output_dir config) (output_name (webp_settings config) ip) in
  save_webp disk image ip config =
  obind (save_file (mkDisk (mkdir_parents (dirs disk) (output_dir config)) (files disk)) out
           (webp_encoder_check (o_quality (webp_settings config)) (o_method (webp_settings config))
              (o_lossless (webp_settings config)))
           (WebpFile Optimized (strip image)))
        (fun d => Done (d, out)).
Proof.
  unfold save_webp, generate_output_path, output_name, default. cbn [bind lift obind].
  destruct (o_suffix (webp_settings config)); reflexivity.
Qed.

Lemma save_webp_done (disk disk' : Disk) (image : Image) (ip p : PyPath)
    (config : PipelineConfig) :
  save_webp disk image ip config = Done (disk', p) ->
  p = path_div (output_dir config) (output_name (webp_settings config) ip) /\
  webp_encoder_check (o_quality (webp_settings config)) (o_method (webp_settings config))
    (o_lossless (webp_settings config)) = Ok tt /\
  dirs disk' = mkdir_parents (dirs disk) (output_dir config) /\
  files disk' = write_file (files disk) p (WebpFile Optimized (strip image)).
Proof.
  rewrite save_webp_eq. destruct (save_file _ _ _ _) as [d|e] eqn:Hs; cbn [obind];
    [|discriminate]. intros H; injection H as <- <-.
  apply save_file_done in Hs as (_ & _ & He & ->). auto.
Qed.


(** ** C5: the blurred derivative *)

Lemma within_one_pixel_le (n b : Z) (q : Q) :
  within_one_pixel n q -> (q <= inject_Z b)%Q -> 1 <= b -> n <= b.
Proof.
  intros [[->| ->] _] Hq Hb; apply Z.max_lub; try lia.
  - rewrite <- (Qfloor_Z b). apply Qfloor_resp_le. exact Hq.
  - rewrite <- (Qceiling_Z b). apply Qceiling_resp_le. exact Hq.
Qed.

Lemma scaled_le_bound (w x : Z) (s : Q) :
  1 <= w -> (s <= inject_Z x / inject_Z w)%Q -> (inject_Z w * s <= inject_Z x)%Q.
Proof.
  intros Hw Hs.
  apply Qle_trans with (inject_Z w * (inject_Z x / inject_Z w))%Q.
  - apply Qmult_le_l; [unfold Qlt; simpl; lia|exact Hs].
  - apply Qle_lteq; right. field. apply inject_Z_nonzero; lia.
Qed.

Section BlurFacts.

Variable resample_px : Image -> Z -> Z -> Z -> Z -> Pixel.
Variable blur_px : Q -> Image -> Z -> Z -> Pixel.

(** [thumbnail] into a box of positive size: the result fits the box and
    the image; an image that fits is kept; otherwise one side is its bound
    and both sides are scaled by one factor. *)
Lemma thumbnail_inplace_box (image : Image) (x y : Z) :
  1 <= width image -> 1 <= height image -> 1 <= x -> 1 <= y ->
  exists t, thumbnail_inplace resample_px image (x, y) = Ok t /\
    width t <= x /\ height t <= y /\
    width t <= width image /\ height t <= height image /\
    (width image <= x -> height image <= y -> t = image) /\
    (x < width image \/ y < height image ->
       let s := Qmin (inject_Z x / inject_Z (width image))
                     (inject_Z y / inject_Z (height image)) in
       (width t = x \/ height t = y) /\
       within_one_pixel (width t) (inject_Z (width image) * s) /\
       within_one_pixel (height t) (inject_Z (height image) * s)).
Proof.
  intros Hw Hh Hx Hy.
  destruct (Z_le_gt_dec (width image) x) as [Fx|Fx];
  [destruct (Z_le_gt_dec (height image) y) as [Fy|Fy]|].
  - exists image. unfold thumbnail_inplace, preserve_aspect_ratio.
    replace ((width image <=? x) && (height image <=? y)) with true
      by (symmetry; apply andb_true_iff; split; apply Z.leb_le; lia).
    split; [reflexivity|]. repeat split; try lia. all: intros [H|H]; lia.
  - assert (Hfit : x < width image \/ y < height image) by lia.
    pose proof (preserve_aspect_ratio_uniform _ _ _ _ Hw Hh Hx Hy Hfit) as L. cbv zeta in L.
    destruct L as (fw & fh & Hp & H1 & H2 & Hb & Wx & Wy).
    destruct (thumbnail_inplace_size resample_px image x y fw fh Hp H1 H2) as (t & Ht & Ew & Eh).
    pose proof (preserve_aspect_ratio_le _ _ x y fw fh Hw Hh ltac:(lia) Hfit Hp) as [Lw Lh].
    exists t. rewrite Ew, Eh. split; [exact Ht|].
    split; [apply (within_one_pixel_le _ _ _ Wx); [apply scaled_le_bound; [lia|apply Q.le_min_l]|lia]|].
    split; [apply (within_one_pixel_le _ _ _ Wy); [apply scaled_le_bound; [lia|apply Q.le_min_r]|lia]|].
    split; [lia|]. split; [lia|]. split; [intros; lia|].
    intros _. cbv zeta. split; [exact Hb|split; assumption].
  - assert (Hfit : x < width image \/ y < height image) by lia.
    pose proof (preserve_aspect_ratio_uniform _ _ _ _ Hw Hh Hx Hy Hfit) as L. cbv zeta in L.
    destruct L as (fw & fh & Hp & H1 & H2 & Hb & Wx & Wy).
    destruct (thumbnail_inplace_size resample_px image x y fw fh Hp H1 H2) as (t & Ht & Ew & Eh).
    pose proof (preserve_aspect_ratio_le _ _ x y fw fh Hw Hh ltac:(lia) Hfit Hp) as [Lw Lh].
    exists t. rewrite Ew, Eh. split; [exact Ht|].
    split; [apply (within_one_pixel_le _ _ _ Wx); [apply scaled_le_bound; [lia|apply Q.le_min_l]|lia]|].
    split; [apply (within_one_pixel_le _ _ _ Wy); [apply scaled_le_bound; [lia|apply Q.le_min_r]|lia]|].
    split; [lia|]. split; [lia|]. split; [intros; lia|].
    intros _. cbv zeta. split; [exact Hb|split; assumption].
Qed.



End BlurFacts.



(** * Further properties of the pipeline *)

Lemma transpose_exif (t : Transpose) (image : Image) : exif (transpose t image) = None.
Proof. destruct t; reflexivity. Qed.

Lemma fix_orientation_no_exif (image : Image) (config : PipelineConfig) :
  exif image = None -> fix_orientation image config = image.
Proof.
  intros H. unfold fix_orientation. rewrite H. destruct (negb _); reflexivity.
Qed.

Lemma fix_orientation_cases (image : Image) (config : PipelineConfig) :
  fix_orientation image config = image \/ exif (fix_orientation image config) = None.
Proof.
  unfold fix_orientation.
  destruct (negb (orientation_enabled config)); [left; reflexivity|].
  destruct (exif image) as [ex|]; [|left; reflexivity].
  destruct (exif_lookup ORIENTATION_TAG ex) as [o|]; [|left; reflexivity].
  repeat (destruct (o =? _); [right; apply transpose_exif|]).
  left. reflexivity.
Qed.

(** X1: [fix_orientation] is idempotent: a transposed image has no EXIF, so a
    second pass returns it unchanged. *)
Theorem fix_orientation_idempotent (image : Image) (config : PipelineConfig) :
  fix_orientation (fix_orientation image config) config = fix_orientation image config.
Proof.
  destruct (fix_orientation_cases image config) as [E|E].
  - rewrite E. rewrite E. reflexivity.
  - apply fix_orientation_no_exif. exact E.
Qed.

Section ConvertFacts.

Variable conversion_supported : string -> string -> bool.
Variable convert_px : string -> Image -> Z -> Z -> Pixel.

Lemma convert_spec (image image' : Image) (m : string) :
  convert conversion_supported convert_px image m = Ok image' ->
  width image' = width image /\ height image' = height image /\
  mode image' = m /\ exif image' = None /\
  convert conversion_supported convert_px image' m = Ok image'.
Proof.
  unfold convert. intros H.
  destruct (String.eqb m (mode image)); [|destruct (conversion_supported _ _); [|discriminate]];
    injection H as <-; simpl; rewrite String.eqb_refl; repeat split; reflexivity.
Qed.

(** X2: [fix_colormode] is idempotent: once normalised, an image is returned
    as it is by a second pass. *)
Theorem fix_colormode_idempotent (image image' : Image) (config : PipelineConfig) :
  fix_colormode conversion_supported convert_px image config = Ok image' ->
  fix_colormode conversion_supported convert_px image' config = Ok image'.
Proof.
  unfold fix_colormode.
  destruct (colormode_enabled config); cbn [negb]; [|intros H; injection H as <-; reflexivity].
  destruct (String.eqb (colormode config) "RGB" || String.eqb (colormode config) "RGBA") eqn:Ec.
  - destruct (String.eqb (mode image) "RGBA") eqn:Ea.
    { intros H. injection H as <-. rewrite Ea. reflexivity. }
    destruct (String.eqb (mode image) "LA").
    + intros H. destruct (convert_spec _ _ _ H) as (_ & _ & -> & _). reflexivity.
    + intros H. destruct (convert_spec _ _ _ H) as (_ & _ & Hm & _ & Hc). rewrite Hm.
      apply orb_true_iff in Ec as [E|E]; apply String.eqb_eq in E; rewrite E in *;
        [exact Hc|reflexivity].
  - destruct (String.eqb (colormode config) "GRAY");
      intros H; exact (proj2 (proj2 (proj2 (proj2 (convert_spec _ _ _ H))))).
Qed.

(** X3: in [process_image] the colour-mode stage runs before the orientation
    stage, and every conversion yields an image without EXIF: whenever the
    colour mode stage converts (every case but an RGBA image with target RGB
    or RGBA), the orientation stage leaves the image unchanged, even when the
    conversion is to the image's own mode. *)
Theorem colormode_conversion_skips_orientation (image image' : Image)
    (config : PipelineConfig) :
  colormode_enabled config = true ->
  ~ ((colormode config = "RGB" \/ colormode config = "RGBA") /\ mode image = "RGBA") ->
  fix_colormode conversion_supported convert_px image config = Ok image' ->
  fix_orientation image' config = image'.
Proof.
  intros He Hn. unfold fix_colormode. rewrite He. cbn [negb].
  destruct (String.eqb (colormode config) "RGB" || String.eqb (colormode config) "RGBA") eqn:Ec.
  - destruct (String.eqb (mode image) "RGBA") eqn:Ea.
    + exfalso. apply Hn. apply String.eqb_eq in Ea. split; [|exact Ea].
      apply orb_true_iff in Ec as [E|E]; apply String.eqb_eq in E; auto.
    + destruct (String.eqb (mode image) "LA");
        intros H; apply fix_orientation_no_exif; apply (convert_spec _ _ _ H).
  - destruct (String.eqb (colormode config) "GRAY");
      intros H; apply fix_orientation_no_exif; apply (convert_spec _ _ _ H).
Qed.

End ConvertFacts.

Ltac bind_step :=
  match goal with
  | |- bind ?r _ = _ -> _ =>
      let E := fresh "Eb" in
      destruct r eqn:E; cbn [bind]; [|let H := fresh in intros H; discriminate H]
  end.

Section ScaleFacts.

Variable resample_px : Image -> Z -> Z -> Z -> Z -> Pixel.

Lemma thumbnail_inplace_meta (image t : Image) (size : Z * Z) :
  thumbnail_inplace resample_px image size = Ok t ->
  exif t = exif image /\ mode t = mode image.
Proof.
  unfold thumbnail_inplace. destruct size as [x y].
  bind_step. destruct a as [[fw fh]|]; [|intros H; injection H as <-; auto].
  destruct ((fw =? width image) && (fh =? height image)); [intros H; injection H as <-; auto|].
  unfold resize.
  destruct ((fw =? width image) && (fh =? height image)); cbn [bind];
    [intros H; injection H as <-; auto|].
  destruct (true && ((fw =? 0) || (fh =? 0))); cbn [bind]; [discriminate|].
  destruct ((fw <? 1) || (fh <? 1)); cbn [bind]; [discriminate|].
  intros H; injection H as <-. auto.
Qed.

(** X4: with a box and an image of positive size, [scale_image] never fails,
    its result fits the box when scaling is enabled, and it is idempotent: a
    scaled image is returned unchanged by a second pass. *)
Theorem scale_image_fits_box (image : Image) (config : PipelineConfig) :
  1 <= width image -> 1 <= height image ->
  1 <= fst (scaling config) -> 1 <= snd (scaling config) ->
  exists image', scale_image resample_px image config = Ok image' /\
    (scaling_enabled config = true ->
       width image' <= fst (scaling config) /\ height image' <= snd (scaling config)) /\
    scale_image resample_px image' config = Ok image'.
Proof.
  intros Hw Hh. unfold scale_image. destruct (scaling config) as [mx my]; simpl. intros Hx Hy.
  destruct (scaling_enabled config) eqn:Ee; cbn [negb].
  2: { exists image. split; [reflexivity|]. split; [discriminate|reflexivity]. }
  destruct ((mx <? width image) || (my <? height image)) eqn:Eg.
  - destruct (thumbnail_inplace_box resample_px image mx my Hw Hh Hx Hy)
      as (t & Ht & Htx & Hty & _).
    exists t. split; [exact Ht|]. split; [intros _; split; assumption|].
    replace ((mx <? width t) || (my <? height t)) with false; [reflexivity|].
    symmetry; apply orb_false_iff; split; apply Z.ltb_ge; lia.
  - exists image. split; [reflexivity|]. split.
    + intros _. apply orb_false_iff in Eg as [E1 E2]. apply Z.ltb_ge in E1, E2. lia.
    + rewrite Eg. reflexivity.
Qed.

(** X5: with a positive target size, [recreate_resize_image] never fails and
    returns an image without EXIF, in the mode of the input, that fits both
    the target box and the input. *)
Theorem recreate_resize_image_strips (image : Image) (config : OutputConfig) (tw th : Z) :
  o_width config = Some tw -> o_height config = Some th ->
  1 <= width image -> 1 <= height image -> 1 <= tw -> 1 <= th ->
  exists t, recreate_resize_image resample_px image config = Ok t /\
    exif t = None /\ mode t = mode image /\
    width t <= tw /\ height t <= th /\ width t <= width image /\ height t <= height image.
Proof.
  intros Htw Hth Hw Hh Hx Hy. unfold recreate_resize_image. rewrite Htw, Hth.
  destruct (thumbnail_inplace_box resample_px (strip image) tw th Hw Hh Hx Hy)
    as (t & Ht & B1 & B2 & B3 & B4 & _).
  destruct (thumbnail_inplace_meta _ _ _ Ht) as [Ex Em].
  exists t. simpl in *. repeat split; assumption.
Qed.

End ScaleFacts.

Section WatermarkFacts.

Variable resample_px : Image -> Z -> Z -> Z -> Z -> Pixel.
Variable conversion_supported : string -> string -> bool.
Variable convert_px : string -> Image -> Z -> Z -> Pixel.
Variable opacity_px : Q -> Image -> Z -> Z -> Pixel.
Variable composite_px : Image -> Image -> Z * Z -> Z -> Z -> Pixel.

(** X6: when the watermark stage is active (enabled, asset present) and
    succeeds, its result has the input's width and height, is in mode RGB and
    carries no EXIF. *)
Theorem add_watermark_output_shape (assets : string -> option Image) (image image' : Image)
    (config : PipelineConfig) (path : string) (asset : Image) :
  default false (wm_enabled (watermark config)) = true ->
  wm_path (watermark config) = Some path -> assets path = Some asset ->
  add_watermark resample_px conversion_supported convert_px opacity_px composite_px
    assets image config = Ok image' ->
  width image' = width image /\ height image' = height image /\
  mode image' = "RGB" /\ exif image' = None.
Proof.
  intros He Hp Ha. unfold add_watermark. rewrite He, Hp, Ha. cbn [negb].
  bind_step. bind_step.
  destruct (wm_opacity (watermark config)) as [o|]; [|discriminate].
  destruct (String.eqb (mode image) "RGBA"); cbn [bind].
  - intros H; injection H as <-. simpl. auto.
  - bind_step. intros H; injection H as <-. simpl.
    destruct (convert_spec _ _ _ _ _ Eb1) as (-> & -> & _). auto.
Qed.


End WatermarkFacts.


Ltac ocrack H :=
  repeat (match type of H with
          | obind ?r _ = _ =>
              let E := fresh "Eo" in destruct r eqn:E; cbn [obind] in H; [|discriminate H]
          end;
          repeat match goal with x : (_ * _)%type |- _ => destruct x end;
          cbn beta iota zeta in H).

Lemma lift_done {A} (r : result A) (a : A) : lift r = Done a -> r = Ok a.
Proof. destruct r; simpl; intros H; [injection H as ->; reflexivity|discriminate]. Qed.

Lemma generate_output_path_none (fs fs' : FS) (config : OutputConfig) (ip p : PyPath) :
  generate_output_path fs config ip None = Ok (fs', p) ->
  exists tp, o_path config = Some tp /\ fs' = mkdir_parents fs (path_of_string tp) /\
    p = path_div (path_of_string tp) (output_name config ip).
Proof.
  unfold generate_output_path. destruct (o_path config) as [tp|]; cbn [bind]; [|discriminate].
  intros H. injection H as <- <-. exists tp. split; [reflexivity|split; [reflexivity|]].
  unfold output_name, default. destruct (o_suffix config); reflexivity.
Qed.

Section RunFacts.

Variable resample_px : Image -> Z -> Z -> Z -> Z -> Pixel.
Variable conversion_supported : string -> string -> bool.
Variable convert_px : string -> Image -> Z -> Z -> Pixel.
Variable enhance_px : Enhancer -> Q -> Image -> Z -> Z -> Pixel.
Variable blur_px : Q -> Image -> Z -> Z -> Pixel.
Variable opacity_px : Q -> Image -> Z -> Z -> Pixel.
Variable composite_px : Image -> Image -> Z * Z -> Z -> Z -> Pixel.
Variable webp_size : SaveKind -> Image -> Z.
Variable webp_decode : SaveKind -> Image -> Image.

Lemma save_file_spec (disk disk' : Disk) (p : PyPath) (e : result unit) (f : File) :
  save_file disk p e f = Done disk' ->
  e = Ok tt /\ dirs disk' = dirs disk /\ files disk' = write_file (files disk) p f.
Proof. intros H. apply save_file_done in H as (_ & _ & -> & ->). auto. Qed.

Lemma create_thumbnail_spec (disk disk' : Disk) (image : Image) (ip : PyPath)
    (config : PipelineConfig) (tpath : option PyPath) :
  create_thumbnail resample_px disk image ip config = Done (disk', tpath) ->
  (default false (o_enabled (thumbnail config)) = false /\ disk' = disk /\ tpath = None) \/
  (default false (o_enabled (thumbnail config)) = true /\
   exists t tp, recreate_resize_image resample_px image (thumbnail config) = Ok t /\
     o_path (thumbnail config) = Some tp /\
     webp_encoder_check (o_quality (thumbnail config)) (o_method (thumbnail config)) (Some false)
       = Ok tt /\
     tpath = Some (path_div (path_of_string tp) (output_name (thumbnail config) ip)) /\
     dirs disk' = mkdir_parents (dirs disk) (path_of_string tp) /\
     files disk' = write_file (files disk)
                     (path_div (path_of_string tp) (output_name (thumbnail config) ip))
                     (WebpFile Thumb t)).
Proof.
  unfold create_thumbnail. destruct (default false (o_enabled (thumbnail config))) eqn:Ee;
    cbn [negb]; intros H; [right; split; [reflexivity|]|left; injection H as <- <-; auto].
  ocrack H. injection H as <- <-.
  apply lift_done in Eo, Eo0, Eo2.
  destruct (generate_output_path_none _ _ _ _ _ Eo0) as (tp & Htp & -> & ->).
  destruct (save_file_spec _ _ _ _ _ Eo1) as (He & Hd & Hf). simpl in Hd, Hf.
  rewrite Hd in Eo2.
  destruct (generate_output_path_none _ _ _ _ _ Eo2) as (tp' & Htp' & -> & ->).
  rewrite Htp in Htp'. injection Htp' as <-.
  exists a, tp. repeat split; try assumption.
  simpl. apply mkdir_parents_idem.
Qed.

Lemma create_blurred_spec (disk disk' : Disk) (image : Image) (ip : PyPath)
    (config : PipelineConfig) (bpath : option PyPath) :
  create_blurred resample_px blur_px disk image ip config = Done (disk', bpath) ->
  (default false (o_enabled (blur config)) = false /\ disk' = disk /\ bpath = None) \/
  (default false (o_enabled (blur config)) = true /\
   exists t rad bp, recreate_resize_image resample_px image (blur config) = Ok t /\
     o_radius (blur config) = Some rad /\ o_path (blur config) = Some bp /\
     webp_encoder_check (o_quality (blur config)) (o_method (blur config)) (Some false)
       = Ok tt /\
     bpath = Some (path_div (path_of_string bp) (output_name (blur config) ip)) /\
     dirs disk' = mkdir_parents (dirs disk) (path_of_string bp) /\
     files disk' = write_file (files disk)
                     (path_div (path_of_string bp) (output_name (blur config) ip))
                     (WebpFile Blurred (gaussian_blur blur_px t rad))).
Proof.
  unfold create_blurred. destruct (default false (o_enabled (blur config))) eqn:Ee;
    cbn [negb]; [|intros H; left; injection H as <- <-; auto].
  intros H. ocrack H. destruct (o_radius (blur config)) as [rad|] eqn:Er; [|discriminate H].
  ocrack H. injection H as <- <-.
  apply lift_done in Eo, Eo0.
  destruct (generate_output_path_none _ _ _ _ _ Eo0) as (bp & Hbp & -> & ->).
  destruct (save_file_spec _ _ _ _ _ Eo1) as (He & Hd & Hf). simpl in Hd, Hf.
  right. split; [reflexivity|]. exists a, rad, bp. repeat split; assumption.
Qed.

Lemma process_image_inv (disk disk' : Disk) (assets : string -> option Image) (s : string)
    (config : PipelineConfig) (r : ProcessResult) :
  process_image resample_px conversion_supported convert_px enhance_px blur_px opacity_px
    composite_px webp_size webp_decode disk assets s config = Done (disk', r) ->
  let ip := path_of_string s in
  let out := path_div (output_dir config) (output_name (webp_settings config) ip) in
  exists im0 im1 disk1 tpath disk2 bpath scaled final,
    open_source webp_size webp_decode disk ip = Done (r_source_size r, im0) /\
    fix_colormode conversion_supported convert_px im0 config = Ok im1 /\
    create_thumbnail resample_px disk (fix_orientation im1 config) ip config
      = Done (disk1, tpath) /\
    create_blurred resample_px blur_px disk1 (fix_orientation im1 config) ip config
      = Done (disk2, bpath) /\
    scale_image resample_px (fix_orientation im1 config) config = Ok scaled /\
    add_watermark resample_px conversion_supported convert_px opacity_px composite_px
      assets (adjust_image enhance_px scaled config) config = Ok final /\
    webp_encoder_check (o_quality (webp_settings config)) (o_method (webp_settings config))
      (o_lossless (webp_settings config)) = Ok tt /\
    dirs disk' = mkdir_parents (dirs disk2) (output_dir config) /\
    files disk' = write_file (files disk2) out (WebpFile Optimized (strip final)) /\
    report webp_size disk' tpath = Done (r_thumbnail r) /\
    report webp_size disk' bpath = Done (r_blurred r) /\
    r_source r = path_str ip /\ r_optimized r = path_str out /\
    r_optimized_size r = webp_size Optimized (strip final).
Proof.
  unfold process_image. intros H. ocrack H.
  injection H as <- <-.
  cbn [r_source r_source_size r_optimized r_optimized_size r_thumbnail r_blurred].
  apply lift_done in Eo0, Eo3, Eo4.
  destruct (save_webp_done _ _ _ _ _ _ Eo5) as (-> & Hc & Hd & Hf).
  unfold stat_size in Eo6. rewrite Hf, lookup_write_same in Eo6. injection Eo6 as <-.
  eexists _, _, _, _, _, _, _, _. repeat split; eassumption.
Qed.

Lemma report_none (disk : Disk) (e : option (string * Z)) :
  report webp_size disk None = Done e -> e = None.
Proof. simpl. intros H; injection H as <-. reflexivity. Qed.

Lemma report_at (disk : Disk) (p : PyPath) (f : File) (e : option (string * Z)) :
  lookup_file (files disk) p = Some f -> report webp_size disk (Some p) = Done e ->
  e = Some (path_str p, file_size webp_size f).
Proof.
  intros Hl. unfold report, stat_size. rewrite Hl. cbn [obind].
  intros H; injection H as <-. reflexivity.
Qed.

Lemma report_some (disk : Disk) (p : PyPath) (e : option (string * Z)) :
  report webp_size disk (Some p) = Done e -> e <> None.
Proof.
  unfold report. destruct (stat_size webp_size disk p); cbn [obind]; [|discriminate].
  intros H; injection H as <-. discriminate.
Qed.

(** X10: a successful [process_image] opens the source, normalises the colour
    mode, corrects the orientation, then scales, adjusts and watermarks; the
    file at [{output_dir}/{stem}{suffix}.webp] holds the metadata-free final
    image, whose path and size are reported under [optimized]; the
    [thumbnail] and [blurred] entries are present exactly when the
    corresponding derivative is enabled; the encoder accepted the [quality],
    [method] (and, for the optimized file, [lossless]) settings of every
    output written. *)
Theorem process_image_pipeline (disk disk' : Disk) (assets : string -> option Image)
    (s : string) (config : PipelineConfig) (r : ProcessResult) :
  process_image resample_px conversion_supported convert_px enhance_px blur_px opacity_px
    composite_px webp_size webp_decode disk assets s config = Done (disk', r) ->
  let ip := path_of_string s in
  let out := path_div (output_dir config) (output_name (webp_settings config) ip) in
  exists im0 im1 scaled final,
    open_source webp_size webp_decode disk ip = Done (r_source_size r, im0) /\
    fix_colormode conversion_supported convert_px im0 config = Ok im1 /\
    scale_image resample_px (fix_orientation im1 config) config = Ok scaled /\
    add_watermark resample_px conversion_supported convert_px opacity_px composite_px
      assets (adjust_image enhance_px scaled config) config = Ok final /\
    lookup_file (files disk') out = Some (WebpFile Optimized (strip final)) /\
    r_source r = path_str ip /\ r_optimized r = path_str out /\
    r_optimized_size r = webp_size Optimized (strip final) /\
    webp_encoder_check (o_quality (webp_settings config)) (o_method (webp_settings config))
      (o_lossless (webp_settings config)) = Ok tt /\
    (r_thumbnail r = None <-> default false (o_enabled (thumbnail config)) = false) /\
    (r_blurred r = None <-> default false (o_enabled (blur config)) = false) /\
    (default false (o_enabled (thumbnail config)) = true ->
       webp_encoder_check (o_quality (thumbnail config)) (o_method (thumbnail config)) (Some false)
         = Ok tt) /\
    (default false (o_enabled (blur config)) = true ->
       webp_encoder_check (o_quality (blur config)) (o_method (blur config)) (Some false) = Ok tt).
Proof.
  intros H ip out.
  destruct (process_image_inv disk disk' assets s config r H)
    as (im0 & im1 & d1 & tpath & d2 & bpath & sc & fin &
        Ho & Hc & Ht & Hb & Hsc & Hw & He & Hd & Hf & Rt & Rb & Rs & Ro & Rz).
  exists im0, im1, sc, fin.
  split; [exact Ho|]. split; [exact Hc|]. split; [exact Hsc|]. split; [exact Hw|].
  split; [rewrite Hf; apply lookup_write_same|].
  split; [exact Rs|]. split; [exact Ro|]. split; [exact Rz|]. split; [exact He|].
  destruct (create_thumbnail_spec _ _ _ _ _ _ Ht)
    as [(Ete & _ & ->)|(Ete & t & tp & _ & _ & Etc & -> & _)];
  (destruct (create_blurred_spec _ _ _ _ _ _ Hb)
     as [(Ebe & _ & ->)|(Ebe & b & rad & bp & _ & _ & _ & Ebc & -> & _)]);
  rewrite ?(report_none _ _ Rt), ?(report_none _ _ Rb), Ete, Ebe;
  (split; [split; intros E; try reflexivity; try discriminate E;
           exfalso; exact (report_some _ _ _ Rt E)|]);
  (split; [split; intros E; try reflexivity; try discriminate E;
           exfalso; exact (report_some _ _ _ Rb E)|]);
  split; intros E; try discriminate E; assumption.
Qed.

(** X11: the optimized image is written last, so a derivative whose output
    path is the optimized file's path is overwritten: its entry reports the
    optimized file's path and size. *)
Theorem process_image_shared_output_path (disk disk' : Disk) (assets : string -> option Image)
    (s : string) (config : PipelineConfig) (r : ProcessResult) :
  process_image resample_px conversion_supported convert_px enhance_px blur_px opacity_px
    composite_px webp_size webp_decode disk assets s config = Done (disk', r) ->
  let ip := path_of_string s in
  let out := path_div (output_dir config) (output_name (webp_settings config) ip) in
  (forall tp, default false (o_enabled (thumbnail config)) = true ->
     o_path (thumbnail config) = Some tp ->
     path_div (path_of_string tp) (output_name (thumbnail config) ip) = out ->
     r_thumbnail r = Some (r_optimized r, r_optimized_size r)) /\
  (forall bp, default false (o_enabled (blur config)) = true ->
     o_path (blur config) = Some bp ->
     path_div (path_of_string bp) (output_name (blur config) ip) = out ->
     r_blurred r = Some (r_optimized r, r_optimized_size r)).
Proof.
  intros H ip out.
  destruct (process_image_inv disk disk' assets s config r H)
    as (im0 & im1 & d1 & tpath & d2 & bpath & sc & fin &
        Ho & Hc & Ht & Hb & Hsc & Hw & He & Hd & Hf & Rt & Rb & Rs & Ro & Rz).
  assert (Hl : lookup_file (files disk') out = Some (WebpFile Optimized (strip fin)))
    by (rewrite Hf; apply lookup_write_same).
  rewrite Ro, Rz. split.
  - intros tp Ee Htp Hp.
    destruct (create_thumbnail_spec _ _ _ _ _ _ Ht) as [(Ee' & _)|(_ & t & tp' & _ & Htp' & _ & Htpath & _)];
      [rewrite Ee in Ee'; discriminate Ee'|].
    rewrite Htp in Htp'. injection Htp' as <-. unfold out, ip in Hp. rewrite Hp in Htpath. subst tpath.
    exact (report_at _ _ _ _ Hl Rt).
  - intros bp Ee Hbp Hp.
    destruct (create_blurred_spec _ _ _ _ _ _ Hb) as [(Ee' & _)|(_ & t & rad & bp' & _ & _ & Hbp' & _ & Hbout & _)];
      [rewrite Ee in Ee'; discriminate Ee'|].
    rewrite Hbp in Hbp'. injection Hbp' as <-. unfold out, ip in Hp. rewrite Hp in Hbout. subst bpath.
    exact (report_at _ _ _ _ Hl Rb).
Qed.

(** X12: [process_image] removes no directory and changes no file but the
    three output files ([{output_dir}], [thumbnail.path] and [blur.path],
    each with [{stem}{suffix}.webp]). *)
Theorem process_image_writes_only_outputs (disk disk' : Disk) (assets : string -> option Image)
    (s : string) (config : PipelineConfig) (r : ProcessResult) :
  process_image resample_px conversion_supported convert_px enhance_px blur_px opacity_px
    composite_px webp_size webp_decode disk assets s config = Done (disk', r) ->
  let ip := path_of_string s in
  (forall d, In d (dirs disk) -> In d (dirs disk')) /\
  (forall q, q <> path_div (output_dir config) (output_name (webp_settings config) ip) ->
     (forall tp, o_path (thumbnail config) = Some tp ->
        q <> path_div (path_of_string tp) (output_name (thumbnail config) ip)) ->
     (forall bp, o_path (blur config) = Some bp ->
        q <> path_div (path_of_string bp) (output_name (blur config) ip)) ->
     lookup_file (files disk') q = lookup_file (files disk) q).
Proof.
  intros H ip.
  destruct (process_image_inv disk disk' assets s config r H)
    as (im0 & im1 & d1 & tpath & d2 & bpath & sc & fin &
        Ho & Hc & Ht & Hb & Hsc & Hw & He & Hd & Hf & Rt & Rb & Rs & Ro & Rz).
  assert (T : (forall d, In d (dirs disk) -> In d (dirs d1)) /\
              (forall q, (forall tp, o_path (thumbnail config) = Some tp ->
                            q <> path_div (path_of_string tp) (output_name (thumbnail config) ip)) ->
                 lookup_file (files d1) q = lookup_file (files disk) q)).
  { destruct (create_thumbnail_spec _ _ _ _ _ _ Ht) as [(_ & -> & _)|(_ & t & tp & _ & Htp & _ & _ & Hd1 & Hf1)];
      [split; auto|].
    split.
    - intros d Hin. rewrite Hd1. apply (proj1 (mkdir_parents_spec _ _)). exact Hin.
    - intros q Hq. rewrite Hf1. apply lookup_write_other. intros E. apply (Hq tp Htp). auto. }
  assert (B : (forall d, In d (dirs d1) -> In d (dirs d2)) /\
              (forall q, (forall bp, o_path (blur config) = Some bp ->
                            q <> path_div (path_of_string bp) (output_name (blur config) ip)) ->
                 lookup_file (files d2) q = lookup_file (files d1) q)).
  { destruct (create_blurred_spec _ _ _ _ _ _ Hb) as [(_ & -> & _)|(_ & t & rad & bp & _ & _ & Hbp & _ & _ & Hd2 & Hf2)].
    - split; auto.
    - split.
      + intros d Hin. rewrite Hd2. apply (proj1 (mkdir_parents_spec _ _)). exact Hin.
      + intros q Hq. rewrite Hf2. apply lookup_write_other. intros E. apply (Hq bp Hbp). auto. }
  destruct T as [T1 T2], B as [B1 B2]. split.
  - intros d Hin. rewrite Hd. apply (proj1 (mkdir_parents_spec _ _)). auto.
  - intros q Hq Hqt Hqb. rewrite Hf, lookup_write_other by (intros E; apply Hq; auto).
    rewrite B2 by exact Hqb. apply T2. exact Hqt.
Qed.

(** X13: the thumbnail and the blurred derivative are made from the image as
    it is after the colour-mode and orientation stages, before scaling,
    adjustment and watermarking; unless a later output overwrites it, each
    stays on disk and is reported with its own path and size. *)
Theorem process_image_derivatives (disk disk' : Disk) (assets : string -> option Image)
    (s : string) (config : PipelineConfig) (r : ProcessResult) :
  process_image resample_px conversion_supported convert_px enhance_px blur_px opacity_px
    composite_px webp_size webp_decode disk assets s config = Done (disk', r) ->
  let ip := path_of_string s in
  let out := path_div (output_dir config) (output_name (webp_settings config) ip) in
  exists im0 im1,
    open_source webp_size webp_decode disk ip = Done (r_source_size r, im0) /\
    fix_colormode conversion_supported convert_px im0 config = Ok im1 /\
    (forall tp, default false (o_enabled (thumbnail config)) = true ->
       o_path (thumbnail config) = Some tp ->
       let p := path_div (path_of_string tp) (output_name (thumbnail config) ip) in
       p <> out ->
       (forall bp, default false (o_enabled (blur config)) = true ->
          o_path (blur config) = Some bp ->
          p <> path_div (path_of_string bp) (output_name (blur config) ip)) ->
       exists t,
         recreate_resize_image resample_px (fix_orientation im1 config) (thumbnail config)
           = Ok t /\
         lookup_file (files disk') p = Some (WebpFile Thumb t) /\
         r_thumbnail r = Some (path_str p, webp_size Thumb t)) /\
    (forall bp, default false (o_enabled (blur config)) = true ->
       o_path (blur config) = Some bp ->
       let p := path_div (path_of_string bp) (output_name (blur config) ip) in
       p <> out ->
       exists t rad,
         recreate_resize_image resample_px (fix_orientation im1 config) (blur config) = Ok t /\
         o_radius (blur config) = Some rad /\
         lookup_file (files disk') p = Some (WebpFile Blurred (gaussian_blur blur_px t rad)) /\
         r_blurred r = Some (path_str p, webp_size Blurred (gaussian_blur blur_px t rad))).
Proof.
  intros H ip out.
  destruct (process_image_inv disk disk' assets s config r H)
    as (im0 & im1 & d1 & tpath & d2 & bpath & sc & fin &
        Ho & Hc & Ht & Hb & Hsc & Hw & He & Hd & Hf & Rt & Rb & Rs & Ro & Rz).
  exists im0, im1. split; [exact Ho|]. split; [exact Hc|]. split.
  - intros tp Ee Htp p Hpo Hpb.
    destruct (create_thumbnail_spec _ _ _ _ _ _ Ht) as [(Ee' & _)|(_ & t & tp' & Hr & Htp' & _ & Htpath & _ & Hf1)];
      [rewrite Ee in Ee'; discriminate Ee'|].
    rewrite Htp in Htp'. injection Htp' as <-. fold ip in Htpath, Hf1. fold p in Htpath, Hf1.
    assert (L1 : lookup_file (files d1) p = Some (WebpFile Thumb t))
      by (rewrite Hf1; apply lookup_write_same).
    assert (L2 : lookup_file (files d2) p = Some (WebpFile Thumb t)).
    { destruct (create_blurred_spec _ _ _ _ _ _ Hb) as [(_ & -> & _)|(Eb & t' & rad & bp & _ & _ & Hbp & _ & _ & _ & Hf2)].
      - exact L1.
      - rewrite Hf2.
        rewrite lookup_write_other; [exact L1|]. intros E. apply (Hpb bp Eb Hbp). auto. }
    assert (L3 : lookup_file (files disk') p = Some (WebpFile Thumb t))
      by (rewrite Hf, lookup_write_other by (intros E; apply Hpo; auto); exact L2).
    exists t. split; [exact Hr|]. split; [exact L3|].
    rewrite Htpath in Rt. exact (report_at _ _ _ _ L3 Rt).
  - intros bp Ee Hbp p Hpo.
    destruct (create_blurred_spec _ _ _ _ _ _ Hb) as [(Ee' & _)|(_ & t & rad & bp' & Hr & Hrad & Hbp' & _ & -> & _ & Hf2)];
      [rewrite Ee in Ee'; discriminate Ee'|].
    rewrite Hbp in Hbp'. injection Hbp' as <-. fold ip p in Hf2, Rb.
    assert (L3 : lookup_file (files disk') p = Some (WebpFile Blurred (gaussian_blur blur_px t rad))).
    { rewrite Hf, lookup_write_other by (intros E; apply Hpo; auto).
      rewrite Hf2. apply lookup_write_same. }
    exists t, rad. split; [exact Hr|]. split; [exact Hrad|]. split; [exact L3|].
    exact (report_at _ _ _ _ L3 Rb).
Qed.

End RunFacts.

Section ThumbnailFacts.

Variable resample_px : Image -> Z -> Z -> Z -> Z -> Pixel.

Lemma recreate_resize_image_exif (image t : Image) (config : OutputConfig) :
  recreate_resize_image resample_px image config = Ok t -> exif t = None.
Proof.
  unfold recreate_resize_image.
  destruct (o_width config), (o_height config); try discriminate.
  intros H. exact (proj1 (thumbnail_inplace_meta resample_px _ _ _ H)).
Qed.

(** X9: when [create_thumbnail] succeeds with the derivative enabled, the
    path it returns (from its second [generate_output_path] call) is the path
    it saved to, the second [mkdir] adds no directory, and the file there is
    the EXIF-free thumbnail; no other file changes. *)
Theorem create_thumbnail_saved_path (disk disk' : Disk) (image : Image) (ip p : PyPath)
    (config : PipelineConfig) :
  create_thumbnail resample_px disk image ip config = Done (disk', Some p) ->
  exists tp t, o_path (thumbnail config) = Some tp /\
    p = path_div (path_of_string tp) (output_name (thumbnail config) ip) /\
    recreate_resize_image resample_px image (thumbnail config) = Ok t /\ exif t = None /\
    lookup_file (files disk') p = Some (WebpFile Thumb t) /\
    dirs disk' = mkdir_parents (dirs disk) (path_of_string tp) /\
    (forall q, q <> p -> lookup_file (files disk') q = lookup_file (files disk) q).
Proof.
  intros H.
  destruct (create_thumbnail_spec resample_px _ _ _ _ _ _ H)
    as [(_ & _ & E)|(_ & t & tp & Hr & Htp & _ & Hp & Hd & Hf)]; [discriminate E|].
  injection Hp as Hp. subst p. exists tp, t.
  split; [exact Htp|]. split; [reflexivity|]. split; [exact Hr|].
  split; [exact (recreate_resize_image_exif _ _ _ Hr)|].
  split; [rewrite Hf; apply lookup_write_same|]. split; [exact Hd|].
  intros q Hq. rewrite Hf. apply lookup_write_other. auto.
Qed.

End ThumbnailFacts.

(** ** Witnesses of the further properties *)

Lemma fix_colormode_idempotent_witness :
  exists image', fix_colormode all_conversions no_convert (test_image 10 10 None) base_config
                   = Ok image' /\
    fix_colormode all_conversions no_convert image' base_config = Ok image'.
Proof.
  destruct (fix_colormode all_conversions no_convert (test_image 10 10 None) base_config)
    as [image'|e] eqn:E; [|vm_compute in E; discriminate E].
  exists image'. split; [reflexivity|].
  exact (fix_colormode_idempotent all_conversions no_convert _ _ _ E).
Defined.

(** An RGB image whose EXIF asks for a rotation (tag 6), with the colour
    mode stage normalising to RGB. *)
Lemma colormode_conversion_skips_orientation_witness :
  exists image', fix_colormode all_conversions no_convert (test_image 10 20 (Some [(274, 6)]))
                   base_config = Ok image' /\
    fix_orientation image' base_config = image'.
Proof.
  destruct (fix_colormode all_conversions no_convert (test_image 10 20 (Some [(274, 6)]))
              base_config) as [image'|e] eqn:E; [|vm_compute in E; discriminate E].
  exists image'. split; [reflexivity|].
  refine (colormode_conversion_skips_orientation all_conversions no_convert
            (test_image 10 20 (Some [(274, 6)])) image' base_config eq_refl _ E).
  simpl. intros [_ H]. discriminate H.
Defined.

Lemma scale_image_fits_box_witness :
  exists image', scale_image no_resample (test_image 4000 3000 None) base_config = Ok image' /\
    (scaling_enabled base_config = true ->
       width image' <= fst (scaling base_config) /\ height image' <= snd (scaling base_config)) /\
    scale_image no_resample image' base_config = Ok image'.
Proof.
  exact (scale_image_fits_box no_resample (test_image 4000 3000 None) base_config
           ltac:(simpl; lia) ltac:(simpl; lia) ltac:(simpl; lia) ltac:(simpl; lia)).
Defined.

Lemma recreate_resize_image_strips_witness :
  exists t, recreate_resize_image no_resample (test_image 100 80 (Some [(274, 6)]))
              (thumbnail derivatives_config) = Ok t /\
    exif t = None /\ mode t = "RGB" /\
    width t <= 32 /\ height t <= 32 /\ width t <= 100 /\ height t <= 80.
Proof.
  exact (recreate_resize_image_strips no_resample (test_image 100 80 (Some [(274, 6)]))
           (thumbnail derivatives_config) 32 32 eq_refl eq_refl
           ltac:(simpl; lia) ltac:(simpl; lia) ltac:(lia) ltac:(lia)).
Defined.

Lemma add_watermark_output_shape_witness :
  exists image', add_watermark no_resample all_conversions no_convert no_opacity no_composite
                   wm_assets (test_image 200 100 None) (with_opacity small_watermark_config (1#2))
                   = Ok image' /\
    width image' = 200 /\ height image' = 100 /\ mode image' = "RGB" /\ exif image' = None.
Proof.
  destruct (add_watermark no_resample all_conversions no_convert no_opacity no_composite
              wm_assets (test_image 200 100 None) (with_opacity small_watermark_config (1#2)))
    as [image'|e] eqn:E; [|vm_compute in E; discriminate E].
  exists image'. split; [reflexivity|].
  exact (add_watermark_output_shape no_resample all_conversions no_convert no_opacity
           no_composite wm_assets (test_image 200 100 None) image'
           (with_opacity small_watermark_config (1#2)) "wm.png" wm_asset
           eq_refl eq_refl eq_refl E).
Defined.



Lemma create_thumbnail_saved_path_witness :
  exists disk' p,
    create_thumbnail no_resample sample_disk (test_image 100 80 None)
      (path_of_string "in/a.png") derivatives_config = Done (disk', Some p) /\
    exists tp t, o_path (thumbnail derivatives_config) = Some tp /\
      p = path_div (path_of_string tp)
            (output_name (thumbnail derivatives_config) (path_of_string "in/a.png")) /\
      recreate_resize_image no_resample (test_image 100 80 None)
        (thumbnail derivatives_config) = Ok t /\ exif t = None /\
      lookup_file (files disk') p = Some (WebpFile Thumb t) /\
      dirs disk' = mkdir_parents (dirs sample_disk) (path_of_string tp) /\
      (forall q, q <> p -> lookup_file (files disk') q = lookup_file (files sample_disk) q).
Proof.
  destruct (create_thumbnail no_resample sample_disk (test_image 100 80 None)
              (path_of_string "in/a.png") derivatives_config) as [[disk' [p|]]|e] eqn:E;
    [|vm_compute in E; discriminate E|vm_compute in E; discriminate E].
  exists disk', p. split; [reflexivity|].
  exact (create_thumbnail_saved_path no_resample _ _ _ _ _ _ E).
Defined.

Lemma process_image_pipeline_witness :
  exists disk' r,
    process_image no_resample all_conversions no_convert no_enhance no_blur no_opacity
      no_composite sample_size sample_decode sample_disk no_assets "in/a.png"
      derivatives_config = Done (disk', r) /\
    r_optimized r = "output/a.webp" /\ r_thumbnail r <> None /\ r_blurred r <> None.
Proof.
  destruct (process_image no_resample all_conversions no_convert no_enhance no_blur no_opacity
              no_composite sample_size sample_decode sample_disk no_assets "in/a.png"
              derivatives_config) as [[disk' r]|e] eqn:E; [|vm_compute in E; discriminate E].
  exists disk', r. split; [reflexivity|].
  destruct (process_image_pipeline no_resample all_conversions no_convert no_enhance no_blur
              no_opacity no_composite sample_size sample_decode _ _ _ _ _ _ E)
    as (im0 & im1 & sc & fin & _ & _ & _ & _ & _ & _ & Ro & _ & _ & [Ht _] & [Hb _] & _).
  split; [rewrite Ro; vm_compute; reflexivity|].
  split; intros N; [apply Ht in N|apply Hb in N]; discriminate N.
Defined.

(** The thumbnails of [derivatives_config] go to [output/a.webp], the path
    of the optimized file. *)
Lemma process_image_shared_output_path_witness :
  exists disk' r,
    process_image no_resample all_conversions no_convert no_enhance no_blur no_opacity
      no_composite sample_size sample_decode sample_disk no_assets "in/a.png"
      derivatives_config = Done (disk', r) /\
    r_thumbnail r = Some (r_optimized r, r_optimized_size r).
Proof.
  destruct (process_image no_resample all_conversions no_convert no_enhance no_blur no_opacity
              no_composite sample_size sample_decode sample_disk no_assets "in/a.png"
              derivatives_config) as [[disk' r]|e] eqn:E; [|vm_compute in E; discriminate E].
  exists disk', r. split; [reflexivity|].
  exact (proj1 (process_image_shared_output_path no_resample all_conversions no_convert
                  no_enhance no_blur no_opacity no_composite sample_size sample_decode
                  _ _ _ _ _ _ E) "output" eq_refl eq_refl eq_refl).
Defined.

Lemma process_image_writes_only_outputs_witness :
  exists disk' r,
    process_image no_resample all_conversions no_convert no_enhance no_blur no_opacity
      no_composite sample_size sample_decode sample_disk no_assets "in/a.png"
      derivatives_config = Done (disk', r) /\
    lookup_file (files disk') (path_of_string "in/a.png")
      = lookup_file (files sample_disk) (path_of_string "in/a.png").
Proof.
  destruct (process_image no_resample all_conversions no_convert no_enhance no_blur no_opacity
              no_composite sample_size sample_decode sample_disk no_assets "in/a.png"
              derivatives_config) as [[disk' r]|e] eqn:E; [|vm_compute in E; discriminate E].
  exists disk', r. split; [reflexivity|].
  apply (proj2 (process_image_writes_only_outputs no_resample all_conversions no_convert
                  no_enhance no_blur no_opacity no_composite sample_size sample_decode
                  _ _ _ _ _ _ E));
    [|intros tp Htp; injection Htp as <-|intros bp Hbp; injection Hbp as <-];
    intros Heq; vm_compute in Heq; discriminate Heq.
Defined.

Lemma process_image_derivatives_witness :
  exists disk' r,
    process_image no_resample all_conversions no_convert no_enhance no_blur no_opacity
      no_composite sample_size sample_decode sample_disk no_assets "in/a.png"
      derivatives_config = Done (disk', r) /\
    exists t rad,
      lookup_file (files disk') (path_of_string "blurred/a.webp")
        = Some (WebpFile Blurred (gaussian_blur no_blur t rad)).
Proof.
  destruct (process_image no_resample all_conversions no_convert no_enhance no_blur no_opacity
              no_composite sample_size sample_decode sample_disk no_assets "in/a.png"
              derivatives_config) as [[disk' r]|e] eqn:E; [|vm_compute in E; discriminate E].
  exists disk', r. split; [reflexivity|].
  destruct (process_image_derivatives no_resample all_conversions no_convert no_enhance
              no_blur no_opacity no_composite sample_size sample_decode _ _ _ _ _ _ E)
    as (im0 & im1 & _ & _ & _ & Hb).
  destruct (Hb "blurred" eq_refl eq_refl ltac:(intros Heq; vm_compute in Heq; discriminate Heq))
    as (t & rad & _ & _ & L & _).
  exists t, rad. exact L.
Defined.
